(** * controllerx: the Ansible Controller dynamic inventory plugin

    A shallow embedding of [inventory_plugins/controllerx.py]
    ([InventoryModule.make_request] and [InventoryModule.parse]) and the
    properties of its filtering and graph assembly. *)

From Stdlib Require Import Ascii.
From stdpp Require Import gmap strings list fin_maps pretty.

Open Scope string_scope.
Set Warnings "-register-all,-clear-no-such-hyp".

(** ** Decoded JSON

    What [json.loads] hands back: the plugin passes variable values through
    untouched and only ever subscripts the two small control documents. *)

Inductive json : Type :=
  | JNull
  | JBool (b : bool)
  | JNum (n : Z)
  | JStr (s : string)
  | JList (l : list json)
  | JObj (o : list (string * json)).

(** ** Exceptions

    [AnsibleOptionsError] and [AnsibleParserError] are the two the plugin
    raises itself; the others escape from the Python runtime ([re.error] from
    [re.compile], and the builtin errors of subscripting and [.get]). *)

Inductive exn : Type :=
  | AnsibleOptionsError
  | AnsibleParserError
  | ReError
  | KeyError
  | IndexError
  | TypeError
  | AttributeError.

(** Python's builtin hierarchy: [KeyError] and [IndexError] derive from
    [LookupError]. *)
Definition is_LookupError (e : exn) : bool :=
  match e with
  | KeyError | IndexError => true
  | _ => false
  end.

Inductive result (A : Type) : Type :=
  | Ok (a : A)
  | Raise (e : exn).
Arguments Ok {A} a.
Arguments Raise {A} e.

(** ** The raw inventory document

    The answer of the script endpoint: a dict from top-level key to a dict
    with optional [hosts], [children] and [vars]; the reserved key [_meta]
    sits in the same dict and carries [hostvars]. *)

Record Content : Type := {
  c_hosts : option (list string);
  c_children : option (list string);
  c_vars : option (gmap string json);
  c_hostvars : option (gmap string (gmap string json))
}.

(** [group_content.get('hosts', [])] and its two siblings. *)
Definition get_hosts (group_content : Content) : list string :=
  default [] (c_hosts group_content).
Definition get_children (group_content : Content) : list string :=
  default [] (c_children group_content).
Definition get_vars (group_content : Content) : gmap string json :=
  default ∅ (c_vars group_content).

(** [six.iteritems] of a dict: every item once, in an order that is the
    interpreter's business (insertion order on Python 3.7 and later, hash
    order before). The plugin is modelled for every such order. *)
Class DictOrder : Type := {
  iteritems : ∀ {V : Type}, gmap string V → list (string * V);
  iteritems_perm : ∀ (V : Type) (d : gmap string V),
    iteritems d ≡ₚ map_to_list d
}.

(** ** The inventory object

    Modelled from the spec: the graph object behind [self.inventory], which
    the host runtime provides and the plugin only drives through five entry
    points. The specification describes it as groups and hosts with their
    variables, group-to-host and group-to-group edges, kept in a mutable
    shared mapping that is updated in place. The plugin names every host and
    every group by a bare string and writes variables through the one
    [set_variable(name, ...)], so the graph is keyed by those strings: the
    names created as groups, the names created as hosts, the two kinds of
    edges, and the variables recorded under each name. *)

Record Inventory : Type := {
  groups : gset string;
  hosts : gset string;
  members : gset (string * string);
  child_groups : gset (string * string);
  variables : gmap (string * string) json;
  reconciled : bool
}.

(** Modelled from the spec: [add_group(group)] registers the name as a
    group. *)
Definition add_group (group : string) (inv : Inventory) : Inventory :=
  {| groups := {[group]} ∪ groups inv;
     hosts := hosts inv;
     members := members inv;
     child_groups := child_groups inv;
     variables := variables inv;
     reconciled := reconciled inv |}.

(** Modelled from the spec: [add_host(host, group=None)], the one entry
    point behind both "create the host" (second loop) and "attach the host as
    a group member" (third loop): it creates the host when it is new and,
    when a group is given, makes it a member of that group. *)
Definition add_host (host : string) (group : option string) (inv : Inventory)
    : Inventory :=
  {| groups := groups inv;
     hosts := {[host]} ∪ hosts inv;
     members := match group with
                | Some g => {[(g, host)]} ∪ members inv
                | None => members inv
                end;
     child_groups := child_groups inv;
     variables := variables inv;
     reconciled := reconciled inv |}.

(** Modelled from the spec: [add_child(group, child)] adds a child edge. *)
Definition add_child (group child : string) (inv : Inventory) : Inventory :=
  {| groups := groups inv;
     hosts := hosts inv;
     members := members inv;
     child_groups := {[(group, child)]} ∪ child_groups inv;
     variables := variables inv;
     reconciled := reconciled inv |}.

(** Modelled from the spec: [set_variable(entity, varname, value)] records
    the value, unchanged, under the entity's name; a later write to the same
    variable replaces an earlier one. *)
Definition set_variable (entity varname : string) (value : json)
    (inv : Inventory) : Inventory :=
  {| groups := groups inv;
     hosts := hosts inv;
     members := members inv;
     child_groups := child_groups inv;
     variables := <[(entity, varname) := value]> (variables inv);
     reconciled := reconciled inv |}.

(** Modelled from the spec: [reconcile_inventory()], the pass of the runtime's
    object that "normalizes implicit memberships", for which the
    specification gives one rule: hosts not explicitly grouped are attached
    to the root group. *)
Definition reconcile_inventory (inv : Inventory) : Inventory :=
  let grouped : gset string := set_map snd (members inv) in
  {| groups := groups inv;
     hosts := hosts inv;
     members := members inv ∪ set_map (pair "all") (hosts inv ∖ grouped);
     child_groups := child_groups inv;
     variables := variables inv;
     reconciled := true |}.

(** ** The Python runtime the plugin calls into

    Regular expressions ([re.compile], [Pattern.search]), [urljoin], [str]
    and Ansible's [ensure_type(_, 'str')] are library code.
    [re_compile s = None] stands for [re.compile] raising. [urljoin] is taken
    on the bases it accepts: a host on which it raises (an unbalanced
    bracket, as in ["[::1"]) is not covered. *)

Class Runtime : Type := {
  Pattern : Type;
  re_compile : string → option Pattern;
  re_search : Pattern → string → bool;
  urljoin : string → string → string;
  py_str : json → string;
  ensure_type_str : json → option string
}.

(** ** Requests, lines 164-181 *)

(** The keyword arguments of [Request(...)], lines 202-205. *)
Record Request : Type := {
  url_username : string;
  url_password : string;
  force_basic_auth : bool;
  validate_certs : bool
}.

(** What [request_handler.get(url)] followed by [json.loads] can come to:
    the transport raises one of the four exception classes of line 169, the
    body is not JSON ([ValueError] or [TypeError] at line 178), or a document
    is decoded. Any other exception of [get] or [read] escapes [make_request]
    unwrapped and is not covered. *)
Inductive Response (A : Type) : Type :=
  | ConnectionFailed
  | NotJson
  | Body (a : A).
Arguments ConnectionFailed {A}.
Arguments NotJson {A}.
Arguments Body {A} a.

(** The remote server, as seen through the three places that query it. The
    script endpoint answers with a raw inventory document, the two others
    with small control documents. The inventory document is taken at its
    type; what the loops do on a document of another shape is not
    covered. *)
Record Controller : Type := {
  inventories_endpoint : Request → string → Response json;
  script_endpoint : Request → string → Response (gmap string Content);
  config_endpoint : Request → string → Response json
}.

(** Computations that may raise and that log every URL requested, oldest
    first. The log survives an exception. *)
Definition M (A : Type) : Type := list string → list string * result A.

#[export] Instance M_ret : MRet M := λ A a log, (log, Ok a).
#[export] Instance M_bind : MBind M := λ A B f m log,
  match m log with
  | (log', Ok a) => f a log'
  | (log', Raise e) => (log', Raise e)
  end.

Definition lift {A : Type} (r : result A) : M A := λ log, (log, r).
Definition raise {A : Type} (e : exn) : M A := lift (Raise e).

Definition make_request {A : Type} (get : Request → string → Response A)
    (request_handler : Request) (controller_url : string) : M A :=
  λ log,
    ((log ++ [controller_url])%list,
     match get request_handler controller_url with
     | ConnectionFailed => Raise AnsibleParserError
     | NotJson => Raise AnsibleParserError
     | Body a => Ok a
     end).

(** ** Subscripting and [.get] on decoded JSON *)

Fixpoint assoc (k : string) (o : list (string * json)) : option json :=
  match o with
  | [] => None
  | (k', v) :: o' => if bool_decide (k' = k) then Some v else assoc k o'
  end.

(** [j[k]] for a string key. *)
Definition getitem (j : json) (k : string) : result json :=
  match j with
  | JObj o => match assoc k o with Some v => Ok v | None => Raise KeyError end
  | _ => Raise TypeError
  end.

(** [j[0]]: a decoded object has string keys only, so [0] is never one. *)
Definition getitem0 (j : json) : result json :=
  match j with
  | JList [] => Raise IndexError
  | JList (x :: _) => Ok x
  | JStr EmptyString => Raise IndexError
  | JStr (String c _) => Ok (JStr (String c EmptyString))
  | JObj _ => Raise KeyError
  | _ => Raise TypeError
  end.

(** [j.get(k, d)]: only dicts have [.get]. *)
Definition dict_get (j : json) (k : string) (d : json) : result json :=
  match j with
  | JObj o => Ok (default d (assoc k o))
  | _ => Raise AttributeError
  end.

(** ** Options *)

Record Options : Type := {
  opt_host : string;
  opt_username : string;
  opt_password : string;
  opt_inventory_name : json;
  opt_hosts_filter : option string;
  opt_hostgroups_filter : option string;
  opt_groups_filter : option string;
  opt_validate_certs : bool;
  opt_include_metadata : bool
}.

(** [re.match('(?:http|https)://', controller_host)], line 199. *)
Definition has_scheme (controller_host : string) : bool :=
  String.prefix "http://" controller_host
  || String.prefix "https://" controller_host.

(** [s.replace(c, by)] for a one-character needle. *)
Fixpoint replace (c : ascii) (by_ : string) (s : string) : string :=
  match s with
  | EmptyString => EmptyString
  | String a s' =>
      if bool_decide (a = c) then by_ +:+ replace c by_ s'
      else String a (replace c by_ s')
  end.

Section Plugin.
Context `{RT : Runtime} `{DO : DictOrder}.

(** *** Graph assembly, lines 249-293 of [parse] *)

(** Line 253: the [continue] guard of the first loop. *)
Definition skip_group (groups_pattern : option Pattern) (group_name : string)
    : bool :=
  match groups_pattern with
  | Some p => negb (re_search p group_name) && bool_decide (group_name ≠ "all")
  | None => false
  end.

(** Line 258. *)
Definition scan_group (hostgroups_pattern : option Pattern)
    (group_name : string) : bool :=
  match hostgroups_pattern with
  | Some p => re_search p group_name
  | None => true
  end.

(** Lines 259-264. *)
Definition collect_hosts (hosts_pattern : option Pattern)
    (allowed_hosts : gset string) (names : list string) : gset string :=
  match hosts_pattern with
  | None => allowed_hosts ∪ list_to_set names
  | Some p =>
      foldl (λ allowed host_name,
               if re_search p host_name then {[host_name]} ∪ allowed
               else allowed)
            allowed_hosts names
  end.

(** Line 263, and line 259 when there is no pattern. *)
Definition host_passes (hosts_pattern : option Pattern) (host_name : string)
    : bool :=
  match hosts_pattern with
  | Some p => re_search p host_name
  | None => true
  end.

(** Lines 253 and 255 together: the keys the first loop lets through. *)
Definition admits_group (groups_pattern : option Pattern)
    (group_name : string) : bool :=
  negb (skip_group groups_pattern group_name)
  && bool_decide (group_name ≠ "_meta").

(** The state of the first loop: [allowed_hosts], [allowed_groups] and the
    inventory being filled. *)
Record Discovery : Type := {
  allowed_hosts : gset string;
  allowed_groups : gset string;
  discovered : Inventory
}.

(** Lines 252-264, one iteration. *)
Definition discover_group (hosts_pattern hostgroups_pattern groups_pattern
    : option Pattern) (st : Discovery) (item : string * Content) : Discovery :=
  let '(group_name, group_content) := item in
  if skip_group groups_pattern group_name then st
  else if bool_decide (group_name ≠ "_meta") then
    let allowed_groups' := {[group_name]} ∪ allowed_groups st in
    let inventory := add_group group_name (discovered st) in
    if scan_group hostgroups_pattern group_name then
      {| allowed_hosts :=
           collect_hosts hosts_pattern (allowed_hosts st)
                         (get_hosts group_content);
         allowed_groups := allowed_groups';
         discovered := inventory |}
    else
      {| allowed_hosts := allowed_hosts st;
         allowed_groups := allowed_groups';
         discovered := inventory |}
  else st.

(** Lines 249-264. *)
Definition discover (hosts_pattern hostgroups_pattern groups_pattern
    : option Pattern) (inventory : gmap string Content) (inv : Inventory)
    : Discovery :=
  foldl (discover_group hosts_pattern hostgroups_pattern groups_pattern)
        {| allowed_hosts := ∅; allowed_groups := ∅; discovered := inv |}
        (iteritems inventory).

(** [for var_name, var_value in six.iteritems(d): set_variable(entity, ...)] *)
Definition set_variables (entity : string) (d : gmap string json)
    (inv : Inventory) : Inventory :=
  foldl (λ acc item, set_variable entity item.1 item.2 acc) inv (iteritems d).

(** Lines 268-273, one iteration. *)
Definition create_host (allowed : gset string) (inv : Inventory)
    (item : string * gmap string json) : Inventory :=
  let '(host_name, host_vars) := item in
  if bool_decide (host_name ∉ allowed) then inv
  else set_variables host_name host_vars (add_host host_name None inv).

(** Lines 268-273. *)
Definition create_hosts (allowed : gset string)
    (all_hosts : gmap string (gmap string json)) (inv : Inventory)
    : Inventory :=
  foldl (create_host allowed) inv (iteritems all_hosts).

(** Lines 281-284. *)
Definition attach_hosts (allowed : gset string) (group_name : string)
    (names : list string) (inv : Inventory) : Inventory :=
  foldl (λ acc host_name,
           if bool_decide (host_name ∉ allowed) then acc
           else add_host host_name (Some group_name) acc)
        inv names.

(** Lines 286-289. *)
Definition attach_children (allowed : gset string) (group_name : string)
    (names : list string) (inv : Inventory) : Inventory :=
  foldl (λ acc child_group_name,
           if bool_decide (child_group_name ∉ allowed) then acc
           else add_child group_name child_group_name acc)
        inv names.

(** Lines 276-293, one iteration. *)
Definition relate_group (allowed_h allowed_g : gset string) (inv : Inventory)
    (item : string * Content) : Inventory :=
  let '(group_name, group_content) := item in
  if bool_decide (group_name ∉ allowed_g) then inv
  else
    let inv1 :=
      if bool_decide (group_name ≠ "all") && bool_decide (group_name ≠ "_meta")
      then
        attach_children allowed_g group_name (get_children group_content)
          (attach_hosts allowed_h group_name (get_hosts group_content) inv)
      else inv in
    if bool_decide (group_name ≠ "_meta")
    then set_variables group_name (get_vars group_content) inv1
    else inv1.

(** Lines 276-293. *)
Definition relate_groups (allowed_h allowed_g : gset string)
    (inventory : gmap string Content) (inv : Inventory) : Inventory :=
  foldl (relate_group allowed_h allowed_g) inv (iteritems inventory).

(** [inventory['_meta']['hostvars']], line 267. *)
Definition meta_hostvars (inventory : gmap string Content)
    : result (gmap string (gmap string json)) :=
  match inventory !! "_meta" with
  | None => Raise KeyError
  | Some meta =>
      match c_hostvars meta with
      | None => Raise KeyError
      | Some all_hosts => Ok all_hosts
      end
  end.

(** Lines 249-293: the three loops over the fetched document. *)
Definition build_graph (hosts_pattern hostgroups_pattern groups_pattern
    : option Pattern) (inventory : gmap string Content) (inv : Inventory)
    : result Inventory :=
  let st := discover hosts_pattern hostgroups_pattern groups_pattern
                     inventory inv in
  match meta_hostvars inventory with
  | Raise e => Raise e
  | Ok all_hosts =>
      Ok (relate_groups (allowed_hosts st) (allowed_groups st) inventory
            (create_hosts (allowed_hosts st) all_hosts (discovered st)))
  end.

(** The iterations of the second loop that write variable [k] of [e]. *)
Definition writes_hostvar (allowed : gset string) (e k : string)
    (item : string * gmap string json) : Prop :=
  item.1 = e ∧ e ∈ allowed ∧ is_Some (item.2 !! k).

(** The groups whose members and children the third loop links, line 279. *)
Definition links (allowed_g : gset string) (group_name : string) : Prop :=
  group_name ∈ allowed_g ∧ group_name ≠ "all" ∧ group_name ≠ "_meta".

(** The iterations of the third loop that write variable [k] of [e]. *)
Definition writes_groupvar (allowed_g : gset string) (e k : string)
    (item : string * Content) : Prop :=
  item.1 = e ∧ e ∈ allowed_g ∧ e ≠ "_meta" ∧ is_Some (get_vars item.2 !! k).

(** The graph the three loops leave behind once [hostvars] has been found. *)
Definition assemble (hosts_pattern hostgroups_pattern groups_pattern
    : option Pattern) (inventory : gmap string Content)
    (all_hosts : gmap string (gmap string json)) (inv : Inventory)
    : Inventory :=
  let st := discover hosts_pattern hostgroups_pattern groups_pattern
                     inventory inv in
  relate_groups (allowed_hosts st) (allowed_groups st) inventory
    (create_hosts (allowed_hosts st) all_hosts (discovered st)).

(** The value the third loop writes under [(e, k)], if it writes one. *)
Definition group_var (allowed_g : gset string)
    (inventory : gmap string Content) (e k : string) : option json :=
  if decide (e ∈ allowed_g)
  then match inventory !! e with
       | Some c => get_vars c !! k
       | None => None
       end
  else None.

(** The value the second loop writes under [(e, k)], if it writes one. *)
Definition host_var (allowed_h : gset string)
    (all_hosts : gmap string (gmap string json)) (e k : string)
    : option json :=
  if decide (e ∈ allowed_h)
  then match all_hosts !! e with
       | Some hv => hv !! k
       | None => None
       end
  else None.

(** Later writes win. *)
Definition or_else {A : Type} (x y : option A) : option A :=
  match x with
  | Some a => Some a
  | None => y
  end.

(** *** The rest of [parse] *)

(** Lines 232-246, one of the three: an unset or empty option compiles to no
    pattern, anything else goes through [re.compile]. *)
Definition compile_filter (filter : option string) : result (option Pattern) :=
  match filter with
  | None => Ok None
  | Some EmptyString => Ok None
  | Some s =>
      match re_compile s with
      | Some p => Ok (Some p)
      | None => Raise ReError
      end
  end.

(** Lines 207-218. *)
Definition inventory_name_option (v : json) : result string :=
  match v with
  | JStr s => Ok s
  | _ =>
      match ensure_type_str v with
      | Some s => Ok s
      | None => Raise AnsibleOptionsError
      end
  end.

(** Lines 198-200. *)
Definition controller_host_of (opts : Options) : string :=
  if has_scheme (opt_host opts) then opt_host opts
  else "https://" +:+ opt_host opts.

(** Lines 202-205. *)
Definition request_handler_of (opts : Options) : Request :=
  {| url_username := opt_username opts;
     url_password := opt_password opts;
     force_basic_auth := true;
     validate_certs := opt_validate_certs opts |}.

(** Lines 221-223. *)
Definition inventory_name_url (controller_host inventory_name : string)
    : string :=
  urljoin controller_host
    ("/api/v2/inventories/?name=" +:+ replace " "%char "%20" inventory_name).

(** Lines 225-229. *)
Definition inventory_url (controller_host : string) (id : json) : string :=
  urljoin controller_host
    ("/api/v2/inventories/" +:+ replace "/"%char "" (py_str id)
       +:+ "/script/?hostvars=1&controllervars=1&all=1").

(** Lines 299-302. *)
Definition server_data (config_data : json) : result json :=
  match dict_get config_data "license_info" (JObj []) with
  | Raise e => Raise e
  | Ok license_info =>
      match dict_get license_info "license_type" (JStr "unknown") with
      | Raise e => Raise e
      | Ok license_type =>
          match dict_get config_data "version" (JStr "unknown") with
          | Raise e => Raise e
          | Ok version =>
              match dict_get config_data "ansible_version" (JStr "unknown") with
              | Raise e => Raise e
              | Ok ansible_version =>
                  Ok (JObj [("license_type", license_type);
                            ("version", version);
                            ("ansible_version", ansible_version)])
              end
          end
      end
  end.

(** Lines 296-303. *)
Definition fetch_metadata (opts : Options) (ctl : Controller)
    (controller_host : string) (request_handler : Request) (inv : Inventory)
    : M Inventory :=
  if opt_include_metadata opts then
    config_data ← make_request (config_endpoint ctl) request_handler
                     (urljoin controller_host "/api/v2/config/");
    data ← lift (server_data config_data);
    mret (set_variable "all" "controller_metadata" data inv)
  else mret inv.

(** Line 225, before [str]: [inventory_data['results'][0]['id']]. *)
Definition first_result_id (inventory_data : json) : result json :=
  match getitem inventory_data "results" with
  | Raise e => Raise e
  | Ok results =>
      match getitem0 results with
      | Raise e => Raise e
      | Ok first => getitem first "id"
      end
  end.

(** Lines 232-246: the three filters, compiled in the order hosts,
    hostgroups, groups. *)
Definition compile_filters (opts : Options)
    : result (option Pattern * option Pattern * option Pattern) :=
  match compile_filter (opt_hosts_filter opts) with
  | Raise e => Raise e
  | Ok hosts_pattern =>
      match compile_filter (opt_hostgroups_filter opts) with
      | Raise e => Raise e
      | Ok hostgroups_pattern =>
          match compile_filter (opt_groups_filter opts) with
          | Raise e => Raise e
          | Ok groups_pattern =>
              Ok (hosts_pattern, hostgroups_pattern, groups_pattern)
          end
      end
  end.

(** *** [parse], lines 192-306

    The options arrive resolved (lines 193-195 belong to the runtime);
    [inventory] is the object the caller passes in. A run that raises yields
    the exception and the log only: what it has by then written into the
    caller's object is not tracked. *)
Definition parse (opts : Options) (ctl : Controller) (inventory : Inventory)
    : M Inventory :=
  let controller_host := controller_host_of opts in
  let request_handler := request_handler_of opts in
  inventory_name ← lift (inventory_name_option (opt_inventory_name opts));
  inventory_data ← make_request (inventories_endpoint ctl) request_handler
                      (inventory_name_url controller_host inventory_name);
  id ← lift (first_result_id inventory_data);
  patterns ← lift (compile_filters opts);
  document ← make_request (script_endpoint ctl) request_handler
                (inventory_url controller_host id);
  built ← lift (build_graph patterns.1.1 patterns.1.2 patterns.2
                            document inventory);
  augmented ← fetch_metadata opts ctl controller_host request_handler built;
  mret (reconcile_inventory augmented).

(** *** The specification's wording of the admission rules

    "The pattern is unset, or it matches the key, or the key is [all]." *)
Definition group_rule (groups_pattern : option Pattern) (g : string) : Prop :=
  groups_pattern = None
  ∨ (∃ p, groups_pattern = Some p ∧ re_search p g = true)
  ∨ g = "all".

(** "The hostgroup filter is unset or matches the group name." *)
Definition hostgroup_rule (hostgroups_pattern : option Pattern) (g : string)
    : Prop :=
  hostgroups_pattern = None
  ∨ ∃ p, hostgroups_pattern = Some p ∧ re_search p g = true.

(** "The host filter is unset or matches its name." *)
Definition host_rule (hosts_pattern : option Pattern) (h : string) : Prop :=
  hosts_pattern = None ∨ ∃ p, hosts_pattern = Some p ∧ re_search p h = true.

(** "Listed in the [hosts] list of at least one group that passes the group
    rule and the hostgroup rule"; [_meta] is not a group. *)
Definition listed_in_scanned_group (hostgroups_pattern groups_pattern
    : option Pattern) (inventory : gmap string Content) (h : string) : Prop :=
  ∃ g c, inventory !! g = Some c ∧ g ≠ "_meta"
         ∧ group_rule groups_pattern g
         ∧ hostgroup_rule hostgroups_pattern g
         ∧ h ∈ get_hosts c.

(** "In [_meta.hostvars], the host filter unset or matching, and listed
    under at least one such group." *)
Definition presence_rule (hosts_pattern hostgroups_pattern groups_pattern
    : option Pattern) (inventory : gmap string Content)
    (all_hosts : gmap string (gmap string json)) (h : string) : Prop :=
  is_Some (all_hosts !! h)
  ∧ host_rule hosts_pattern h
  ∧ listed_in_scanned_group hostgroups_pattern groups_pattern inventory h.

(** *** The specification's wording of the metadata variable

    "[license_type] taken from [license_info.license_type], [version] and
    [ansible_version], each defaulting to "unknown" when absent." *)
Definition field_or_unknown (k : string) (o : list (string * json)) : json :=
  default (JStr "unknown") (assoc k o).

Definition license_type_of (config : list (string * json)) : json :=
  match assoc "license_info" config with
  | Some (JObj license_info) => field_or_unknown "license_type" license_info
  | _ => JStr "unknown"
  end.

Definition controller_metadata (config : list (string * json)) : json :=
  JObj [("license_type", license_type_of config);
        ("version", field_or_unknown "version" config);
        ("ansible_version", field_or_unknown "ansible_version" config)].

(** [license_info], when the server sends one, is a dict. *)
Definition license_info_is_dict (config : list (string * json)) : Prop :=
  match assoc "license_info" config with
  | None | Some (JObj _) => True
  | Some _ => False
  end.

(** The three URLs of a run. *)
Definition name_request (opts : Options) (inventory_name : string) : string :=
  inventory_name_url (controller_host_of opts) inventory_name.
Definition script_request (opts : Options) (id : json) : string :=
  inventory_url (controller_host_of opts) id.
Definition config_request (opts : Options) : string :=
  urljoin (controller_host_of opts) "/api/v2/config/".

(** A configured filter that [re.compile] rejects. *)
Definition invalid_filter (filter : option string) : Prop :=
  ∃ s, filter = Some s ∧ s ≠ "" ∧ re_compile s = None.

End Plugin.

(** ** A runtime for worked examples

    The fragment of Python needed to run the plugin on small inputs: a
    pattern made of letters and digits compiles and is found in exactly the
    names that contain it; everything else is left out of the fragment and
    does not compile (among them ["("], which [re.compile] rejects too).
    [urljoin] is concatenation, which is what it does for a base without a
    path. *)

Fixpoint contains (needle hay : string) : bool :=
  String.prefix needle hay
  || match hay with
     | EmptyString => false
     | String _ rest => contains needle rest
     end.

Definition is_alnum (c : ascii) : bool :=
  let n := nat_of_ascii c in
  (((48 <=? n) && (n <=? 57)) || ((65 <=? n) && (n <=? 90))
   || ((97 <=? n) && (n <=? 122)))%nat.

Fixpoint all_alnum (s : string) : bool :=
  match s with
  | EmptyString => true
  | String c s' => is_alnum c && all_alnum s'
  end.

Definition literal_str (j : json) : string :=
  match j with
  | JNum n => pretty n
  | JStr s => s
  | JBool true => "True"
  | JBool false => "False"
  | _ => "None"
  end.

#[export] Instance literal_runtime : Runtime := {|
  Pattern := string;
  re_compile s := if all_alnum s then Some s else None;
  re_search := contains;
  urljoin base path := base +:+ path;
  py_str := literal_str;
  ensure_type_str j :=
    match j with
    | JNum _ | JBool _ => Some (literal_str j)
    | _ => None
    end
|}.

(** Two iteration orders: the one of the map's own listing, and its
    reverse. *)
#[export] Instance listing_order : DictOrder := {|
  iteritems V d := map_to_list d;
  iteritems_perm V d := reflexivity (map_to_list d)
|}.

Definition reverse_order : DictOrder := {|
  iteritems V d := reverse (map_to_list d);
  iteritems_perm V d := reverse_Permutation (map_to_list d)
|}.

Definition empty_inventory : Inventory :=
  {| groups := ∅; hosts := ∅; members := ∅; child_groups := ∅;
     variables := ∅; reconciled := false |}.

Definition group_entry (hs cs : list string) (vs : list (string * json))
    : Content :=
  {| c_hosts := Some hs; c_children := Some cs;
     c_vars := Some (list_to_map vs); c_hostvars := None |}.

Definition hostvars_of (hv : list (string * list (string * json)))
    : gmap string (gmap string json) :=
  list_to_map (prod_map id list_to_map <$> hv).

Definition meta_entry (hv : list (string * list (string * json))) : Content :=
  {| c_hosts := None; c_children := None; c_vars := None;
     c_hostvars := Some (hostvars_of hv) |}.

Definition scenario_hostvars : gmap string (gmap string json) :=
  hostvars_of [("h1", [("ip", JStr "10.0.0.1")]);
               ("h2", [("ip", JStr "10.0.0.2")])].

(** The document of the specification's scenarios. *)
Definition scenario_doc : gmap string Content :=
  list_to_map
    [("all", group_entry ["h1"; "h2"] [] []);
     ("g1", group_entry ["h1"] [] [("env", JStr "prod")]);
     ("_meta", {| c_hosts := None; c_children := None; c_vars := None;
                  c_hostvars := Some scenario_hostvars |})].

(** A host listed under a group but missing from [_meta.hostvars]. *)
Definition orphan_doc : gmap string Content :=
  list_to_map
    [("g1", group_entry ["h9"] [] []);
     ("_meta", meta_entry [])].

(** Two groups, one of which carries a variable. *)
Definition two_groups_doc : gmap string Content :=
  list_to_map
    [("g1", group_entry [] [] []);
     ("g2", group_entry [] [] [("env", JStr "prod")]);
     ("_meta", meta_entry [])].

(** A group and a host of the same name. *)
Definition namesake_doc : gmap string Content :=
  list_to_map
    [("web", group_entry ["web"] [] []);
     ("_meta", meta_entry [("web", [("b", JNum 2)])])].

(** A parent with one admitted and one filtered child, and a host reachable
    only through the root group. *)
Definition family_doc : gmap string Content :=
  list_to_map
    [("all", group_entry ["h1"; "h2"] ["g1"; "x2"] [("site", JStr "lab")]);
     ("g1", group_entry ["h1"] ["g1a"; "x2"] [("env", JStr "prod")]);
     ("g1a", group_entry ["h1"] [] []);
     ("x2", group_entry ["h2"] [] [("env", JStr "dev")]);
     ("_meta", {| c_hosts := None; c_children := None; c_vars := None;
                  c_hostvars := Some scenario_hostvars |})].

Definition example_options : Options :=
  {| opt_host := "ctl.example.org";
     opt_username := "admin";
     opt_password := "secret";
     opt_inventory_name := JStr "prod inv";
     opt_hosts_filter := None;
     opt_hostgroups_filter := None;
     opt_groups_filter := None;
     opt_validate_certs := true;
     opt_include_metadata := true |}.

(** The same options with an unbalanced parenthesis as hosts filter. *)
Definition bad_filter_options : Options :=
  {| opt_host := "ctl.example.org";
     opt_username := "admin";
     opt_password := "secret";
     opt_inventory_name := JStr "prod inv";
     opt_hosts_filter := Some "(";
     opt_hostgroups_filter := None;
     opt_groups_filter := None;
     opt_validate_certs := true;
     opt_include_metadata := true |}.

Definition example_config : list (string * json) :=
  [("license_info", JObj [("license_type", JStr "enterprise")]);
   ("version", JStr "4.2.0")].

Definition example_controller : Controller :=
  {| inventories_endpoint _ _ :=
       Body (JObj [("count", JNum 1);
                   ("results", JList [JObj [("id", JNum 7)]])]);
     script_endpoint _ _ := Body scenario_doc;
     config_endpoint _ _ := Body (JObj example_config) |}.

(** A server that knows no inventory of the requested name. *)
Definition empty_results_controller : Controller :=
  {| inventories_endpoint _ _ := Body (JObj [("results", JList [])]);
     script_endpoint _ _ := Body scenario_doc;
     config_endpoint _ _ := Body (JObj example_config) |}.

(** ** [verify_file], lines 183-190, and the guard of line 194 *)

(** [s.endswith(suffix)]: some tail of [s] is the suffix. *)
Fixpoint ends_with (suffix s : string) : bool :=
  String.eqb s suffix
  || match s with
     | EmptyString => false
     | String _ s' => ends_with suffix s'
     end.

(** [s.endswith((suffix1, suffix2, ...))]. *)
Definition ends_with_any (suffixes : list string) (s : string) : bool :=
  existsb (λ suffix, ends_with suffix s) suffixes.

(** The one attribute the plugin object carries between calls, line 162. *)
Record PluginState : Type := {
  no_config_file_supplied : bool
}.

(** Lines 183-190. [super_verify_file] is the inherited check of
    [BaseInventoryPlugin]; it is consulted only when the path is not the
    environment pseudo-path. *)
Definition verify_file (super_verify_file : string → bool)
    (self : PluginState) (path : string) : PluginState * bool :=
  if ends_with "@controllerx_inventory" path then
    ({| no_config_file_supplied := true |}, true)
  else if super_verify_file path then
    (self,
     ends_with_any ["controllerx_inventory.yml"; "controllerx_inventory.yaml";
                    "controllerx.yml"; "controllerx.yaml"] path)
  else (self, false).

(** The plugin object after [verify_file] has been called on each path in
    turn. *)
Definition verify_files (super_verify_file : string → bool)
    (paths : list string) (self : PluginState) : PluginState :=
  foldl (λ st path, (verify_file super_verify_file st path).1) self paths.

(** Line 194: whether [parse] goes on to [_read_config_data(path)]. *)
Definition reads_config_file (self : PluginState) (isfile : string → bool)
    (path : string) : bool :=
  negb (no_config_file_supplied self) && isfile path.

(** The characters of a string, for statements about [replace]. *)
Fixpoint chars (s : string) : list ascii :=
  match s with
  | EmptyString => []
  | String a s' => a :: chars s'
  end.

(** The example options with a list as [inventory_name]. *)
Definition bad_name_options : Options :=
  {| opt_host := "ctl.example.org";
     opt_username := "admin";
     opt_password := "secret";
     opt_inventory_name := JList [JStr "prod"];
     opt_hosts_filter := None;
     opt_hostgroups_filter := None;
     opt_groups_filter := None;
     opt_validate_certs := true;
     opt_include_metadata := true |}.



(** Two groups with one host each, and no root group entry. *)
Definition split_doc : gmap string Content :=
  list_to_map
    [("g1", group_entry ["h1"] [] []);
     ("x2", group_entry ["h2"] [] []);
     ("_meta", {| c_hosts := None; c_children := None; c_vars := None;
                  c_hostvars := Some scenario_hostvars |})].

(** * Loops as folds

    Every loop of [parse] is a left fold that grows sets or overwrites map
    entries. The four facts below are all the induction the development
    needs. *)

Section FoldFacts.
Context {S A : Type} (f : S → A → S).

(** A projection no iteration changes is unchanged by the loop. *)
Lemma foldl_preserved {B : Type} (proj : S → B) :
  (∀ s a, proj (f s a) = proj s) →
  ∀ l s, proj (foldl f s l) = proj s.
Proof.
  intros Hstep l. induction l as [|a l IH]; intros s; simpl; [done|].
  by rewrite IH, Hstep.
Qed.

(** A set every iteration only adds to, according to [P]. *)
Lemma foldl_elem_of `{Countable K} (proj : S → gset K) (P : A → K → Prop) :
  (∀ s a x, x ∈ proj (f s a) ↔ x ∈ proj s ∨ P a x) →
  ∀ l s x, x ∈ proj (foldl f s l) ↔ x ∈ proj s ∨ ∃ a, a ∈ l ∧ P a x.
Proof.
  intros Hstep l. induction l as [|a l IH]; intros s x; simpl.
  - split; [by left|]. intros [?|(a & Ha & _)]; [done|]. by apply elem_of_nil in Ha.
  - rewrite IH, Hstep. split.
    + intros [[?|?]|(b & Hb & ?)]; [by left| |].
      * right. exists a. split; [by left|done].
      * right. exists b. split; [by right|done].
    + intros [?|(b & Hb & ?)]; [by left; left|].
      apply elem_of_cons in Hb as [->|Hb]; [by left; right|].
      right. by exists b.
Qed.

(** A map entry no iteration touches keeps its value. *)
Lemma foldl_lookup_untouched `{Countable K} {V : Type} (proj : S → gmap K V)
    (touch : A → Prop) (i : K) :
  (∀ s a, ¬ touch a → proj (f s a) !! i = proj s !! i) →
  ∀ l s, (∀ a, a ∈ l → ¬ touch a) → proj (foldl f s l) !! i = proj s !! i.
Proof.
  intros Hstep l. induction l as [|a l IH]; intros s Hl; simpl; [done|].
  rewrite IH.
  - apply Hstep, Hl. by left.
  - intros b Hb. apply Hl. by right.
Qed.

(** A map entry that some iteration writes, and that every writing iteration
    sets to the same value, ends with that value. *)
Lemma foldl_lookup_written `{Countable K} {V : Type} (proj : S → gmap K V)
    (touch : A → Prop) (i : K) (v : V) (l : list A) :
  (∀ a, touch a ∨ ¬ touch a) →
  (∀ s a, ¬ touch a → proj (f s a) !! i = proj s !! i) →
  (∀ s a, a ∈ l → touch a → proj (f s a) !! i = Some v) →
  (∃ a, a ∈ l ∧ touch a) →
  ∀ s, proj (foldl f s l) !! i = Some v.
Proof.
  intros Hdec Hskip. induction l as [|a l IH] using rev_ind;
    intros Hwrite (a0 & Ha0 & Ht) s.
  - by apply elem_of_nil in Ha0.
  - rewrite foldl_app. simpl. destruct (Hdec a) as [Ha|Ha].
    + apply Hwrite; [|done]. apply elem_of_app. right. by left.
    + rewrite Hskip by done. apply IH.
      * intros s' b Hb. apply Hwrite, elem_of_app. by left.
      * apply elem_of_app in Ha0 as [Ha0|Ha0]; [by exists a0|].
        apply list_elem_of_singleton in Ha0. by subst.
Qed.

End FoldFacts.

(** * The first loop: admission *)

Section Discovery.
Context `{RT : Runtime} `{DO : DictOrder}.
Implicit Types (hp hgp gp : option Pattern) (inventory : gmap string Content).

Lemma elem_of_iteritems {V : Type} (d : gmap string V) k v :
  (k, v) ∈ iteritems d ↔ d !! k = Some v.
Proof. rewrite (iteritems_perm V d). apply elem_of_map_to_list. Qed.

Lemma NoDup_iteritems {V : Type} (d : gmap string V) :
  NoDup (iteritems d).*1.
Proof. rewrite (iteritems_perm V d). apply NoDup_fst_map_to_list. Qed.

(** Two items of one dict under the same key are the same item. *)
Lemma iteritems_functional {V : Type} (d : gmap string V) k v1 v2 :
  (k, v1) ∈ iteritems d → (k, v2) ∈ iteritems d → v1 = v2.
Proof. rewrite !elem_of_iteritems. congruence. Qed.

Lemma elem_of_collect_hosts hp allowed names h :
  h ∈ collect_hosts hp allowed names
  ↔ h ∈ allowed ∨ (h ∈ names ∧ host_passes hp h = true).
Proof.
  destruct hp as [p|]; simpl.
  - rewrite (foldl_elem_of _ (λ s, s) (λ n x, x = n ∧ re_search p n = true)).
    + split; intros [?|Hr]; auto; right.
      * destruct Hr as (n & ? & -> & ?). done.
      * destruct Hr. by exists h.
    + intros s n x. destruct (re_search p n); set_solver.
  - rewrite elem_of_union, elem_of_list_to_set. naive_solver.
Qed.

Lemma discover_group_allowed_groups hp hgp gp st item g :
  g ∈ allowed_groups (discover_group hp hgp gp st item)
  ↔ g ∈ allowed_groups st ∨ (g = item.1 ∧ admits_group gp g = true).
Proof.
  destruct item as [n c]. unfold discover_group, admits_group. simpl.
  destruct (skip_group gp n) eqn:Hs; simpl.
  - split; [by left|]. intros [?|[-> ?]]; [done|]. by rewrite Hs in *.
  - case_bool_decide as Hm; simpl.
    + destruct (scan_group hgp n); simpl; rewrite elem_of_union,
        elem_of_singleton; split; intros [?|?]; auto.
      * right. subst. rewrite Hs. by rewrite bool_decide_eq_true_2.
      * left. naive_solver.
      * right. subst. rewrite Hs. by rewrite bool_decide_eq_true_2.
      * left. naive_solver.
    + split; [by left|]. intros [?|[-> H]]; [done|].
      rewrite Hs in H. simpl in H. by apply bool_decide_eq_true in H.
Qed.

Lemma discover_group_allowed_hosts hp hgp gp st item h :
  h ∈ allowed_hosts (discover_group hp hgp gp st item)
  ↔ h ∈ allowed_hosts st
    ∨ (admits_group gp item.1 = true ∧ scan_group hgp item.1 = true
       ∧ h ∈ get_hosts item.2 ∧ host_passes hp h = true).
Proof.
  destruct item as [n c]. unfold discover_group, admits_group. simpl.
  destruct (skip_group gp n); simpl; [naive_solver|].
  case_bool_decide; simpl; [|naive_solver].
  destruct (scan_group hgp n); simpl; [|naive_solver].
  rewrite elem_of_collect_hosts. naive_solver.
Qed.

Lemma discover_group_groups hp hgp gp st item g :
  g ∈ groups (discovered (discover_group hp hgp gp st item))
  ↔ g ∈ groups (discovered st) ∨ (g = item.1 ∧ admits_group gp g = true).
Proof.
  destruct item as [n c]. unfold discover_group, admits_group. simpl.
  destruct (skip_group gp n) eqn:Hs; simpl.
  - split; [by left|]. intros [?|[-> ?]]; [done|]. by rewrite Hs in *.
  - case_bool_decide as Hm; simpl.
    + destruct (scan_group hgp n); simpl; rewrite elem_of_union,
        elem_of_singleton; split; intros [?|?]; auto.
      * right. subst. rewrite Hs. by rewrite bool_decide_eq_true_2.
      * left. naive_solver.
      * right. subst. rewrite Hs. by rewrite bool_decide_eq_true_2.
      * left. naive_solver.
    + split; [by left|]. intros [?|[-> H]]; [done|].
      rewrite Hs in H. simpl in H. by apply bool_decide_eq_true in H.
Qed.

(** The first loop calls nothing but [add_group]. *)
Lemma discover_group_rest hp hgp gp st item :
  let inv := discovered st in
  let inv' := discovered (discover_group hp hgp gp st item) in
  hosts inv' = hosts inv ∧ members inv' = members inv
  ∧ child_groups inv' = child_groups inv ∧ variables inv' = variables inv
  ∧ reconciled inv' = reconciled inv.
Proof.
  destruct item as [n c]. unfold discover_group. simpl.
  destruct (skip_group gp n); [done|]. case_bool_decide; [|done].
  by destruct (scan_group hgp n).
Qed.

(** [allowed_groups] after the loop: the admitted keys of the document. *)
Lemma elem_of_allowed_groups hp hgp gp inventory inv g :
  g ∈ allowed_groups (discover hp hgp gp inventory inv)
  ↔ is_Some (inventory !! g) ∧ admits_group gp g = true.
Proof.
  unfold discover.
  rewrite (foldl_elem_of _ allowed_groups
             (λ item x, x = item.1 ∧ admits_group gp x = true))
    by apply discover_group_allowed_groups.
  simpl. split.
  - intros [?|([n c] & Hin & -> & ?)]; [set_solver|].
    apply elem_of_iteritems in Hin. eauto.
  - intros [[c Hc] ?]. right. exists (g, c).
    by rewrite elem_of_iteritems.
Qed.

(** [allowed_hosts] after the loop. *)
Lemma elem_of_allowed_hosts hp hgp gp inventory inv h :
  h ∈ allowed_hosts (discover hp hgp gp inventory inv)
  ↔ ∃ g c, inventory !! g = Some c ∧ admits_group gp g = true
           ∧ scan_group hgp g = true ∧ h ∈ get_hosts c
           ∧ host_passes hp h = true.
Proof.
  unfold discover.
  rewrite (foldl_elem_of _ allowed_hosts
             (λ item x, admits_group gp item.1 = true
                        ∧ scan_group hgp item.1 = true
                        ∧ x ∈ get_hosts item.2 ∧ host_passes hp x = true))
    by apply discover_group_allowed_hosts.
  simpl. split.
  - intros [?|([n c] & Hin & ?)]; [set_solver|].
    apply elem_of_iteritems in Hin. by exists n, c.
  - intros (n & c & Hc & ?). right. exists (n, c).
    by rewrite elem_of_iteritems.
Qed.

(** The groups registered by the loop are the allowed ones. *)
Lemma elem_of_discovered_groups hp hgp gp inventory inv g :
  g ∈ groups (discovered (discover hp hgp gp inventory inv))
  ↔ g ∈ groups inv ∨ g ∈ allowed_groups (discover hp hgp gp inventory inv).
Proof.
  rewrite elem_of_allowed_groups. unfold discover.
  rewrite (foldl_elem_of _ (λ st, groups (discovered st))
             (λ item x, x = item.1 ∧ admits_group gp x = true))
    by apply discover_group_groups.
  simpl. split.
  - intros [?|([n c] & Hin & -> & ?)]; [by left|].
    apply elem_of_iteritems in Hin. right. eauto.
  - intros [?|[[c Hc] ?]]; [by left|]. right. exists (g, c).
    by rewrite elem_of_iteritems.
Qed.

Lemma discovered_rest hp hgp gp inventory inv :
  let inv' := discovered (discover hp hgp gp inventory inv) in
  hosts inv' = hosts inv ∧ members inv' = members inv
  ∧ child_groups inv' = child_groups inv ∧ variables inv' = variables inv
  ∧ reconciled inv' = reconciled inv.
Proof.
  unfold discover.
  pose proof (discover_group_rest hp hgp gp) as Hstep. simpl in *.
  repeat split.
  - apply (foldl_preserved _ (λ st, hosts (discovered st))). intros. apply Hstep.
  - apply (foldl_preserved _ (λ st, members (discovered st))). intros. apply Hstep.
  - apply (foldl_preserved _ (λ st, child_groups (discovered st))). intros. apply Hstep.
  - apply (foldl_preserved _ (λ st, variables (discovered st))). intros. apply Hstep.
  - apply (foldl_preserved _ (λ st, reconciled (discovered st))). intros. apply Hstep.
Qed.

End Discovery.

(** * The second loop: hosts and their variables *)

Section Hosts.
Context `{RT : Runtime} `{DO : DictOrder}.

(** Writing a dict of variables under one name touches nothing else. *)
Lemma set_variables_rest entity d inv :
  let inv' := set_variables entity d inv in
  groups inv' = groups inv ∧ hosts inv' = hosts inv
  ∧ members inv' = members inv ∧ child_groups inv' = child_groups inv
  ∧ reconciled inv' = reconciled inv.
Proof.
  unfold set_variables. simpl. repeat split.
  - by apply (foldl_preserved _ groups).
  - by apply (foldl_preserved _ hosts).
  - by apply (foldl_preserved _ members).
  - by apply (foldl_preserved _ child_groups).
  - by apply (foldl_preserved _ reconciled).
Qed.

Lemma set_variables_lookup_Some entity d inv k v :
  d !! k = Some v →
  variables (set_variables entity d inv) !! (entity, k) = Some v.
Proof.
  intros Hk. unfold set_variables.
  apply (foldl_lookup_written _ variables (λ item, item.1 = k)).
  - intros item. destruct (decide (item.1 = k)); auto.
  - intros s item Hne. simpl. apply lookup_insert_ne. congruence.
  - intros s [k' v'] Hin Heq. simpl in *. subst k'.
    apply elem_of_iteritems in Hin. rewrite Hk in Hin. injection Hin as ->.
    apply lookup_insert_eq.
  - exists (k, v). by rewrite elem_of_iteritems.
Qed.

Lemma set_variables_lookup_other entity d inv e k :
  e ≠ entity ∨ d !! k = None →
  variables (set_variables entity d inv) !! (e, k) = variables inv !! (e, k).
Proof.
  intros Hne. unfold set_variables.
  apply (foldl_lookup_untouched _ variables (λ item, e = entity ∧ item.1 = k)).
  - intros s item Hn. simpl. apply lookup_insert_ne. intros [=]. naive_solver.
  - intros [k' v'] Hin [-> Heq]. simpl in *. subst k'.
    apply elem_of_iteritems in Hin. naive_solver.
Qed.

Lemma create_host_rest allowed inv item :
  let inv' := create_host allowed inv item in
  groups inv' = groups inv ∧ members inv' = members inv
  ∧ child_groups inv' = child_groups inv ∧ reconciled inv' = reconciled inv.
Proof.
  destruct item as [h hv]. unfold create_host. simpl.
  case_bool_decide; [done|].
  destruct (set_variables_rest h hv (add_host h None inv)) as (-> & _ & -> & -> & ->).
  done.
Qed.

Lemma create_host_hosts allowed inv item x :
  x ∈ hosts (create_host allowed inv item)
  ↔ x ∈ hosts inv ∨ (x = item.1 ∧ x ∈ allowed).
Proof.
  destruct item as [h hv]. unfold create_host. simpl.
  case_bool_decide as Hn; [naive_solver|].
  destruct (set_variables_rest h hv (add_host h None inv)) as (_ & -> & _).
  simpl. set_solver.
Qed.

Lemma writes_hostvar_dec allowed e k item :
  writes_hostvar allowed e k item ∨ ¬ writes_hostvar allowed e k item.
Proof.
  unfold writes_hostvar.
  destruct (decide (item.1 = e ∧ e ∈ allowed ∧ is_Some (item.2 !! k))); auto.
Qed.

Lemma create_host_untouched allowed inv item e k :
  ¬ writes_hostvar allowed e k item →
  variables (create_host allowed inv item) !! (e, k) = variables inv !! (e, k).
Proof.
  destruct item as [h hv]. unfold writes_hostvar, create_host. simpl.
  intros Hn. case_bool_decide as Ha; [done|].
  rewrite set_variables_lookup_other; [done|].
  destruct (decide (e = h)) as [->|]; [|by left]. right.
  destruct (hv !! k) eqn:?; [|done]. destruct Hn. eauto.
Qed.

Lemma create_host_written allowed inv h hv k v :
  h ∈ allowed → hv !! k = Some v →
  variables (create_host allowed inv (h, hv)) !! (h, k) = Some v.
Proof.
  intros Ha Hk. unfold create_host.
  rewrite bool_decide_eq_false_2 by (by intros ?).
  by apply set_variables_lookup_Some.
Qed.

Lemma create_hosts_rest allowed all_hosts inv :
  let inv' := create_hosts allowed all_hosts inv in
  groups inv' = groups inv ∧ members inv' = members inv
  ∧ child_groups inv' = child_groups inv ∧ reconciled inv' = reconciled inv.
Proof.
  unfold create_hosts. simpl.
  pose proof (create_host_rest allowed) as Hstep. simpl in *. repeat split.
  - apply (foldl_preserved _ groups). intros. apply Hstep.
  - apply (foldl_preserved _ members). intros. apply Hstep.
  - apply (foldl_preserved _ child_groups). intros. apply Hstep.
  - apply (foldl_preserved _ reconciled). intros. apply Hstep.
Qed.

(** The hosts created by the second loop: the allowed keys of [hostvars]. *)
Lemma elem_of_create_hosts allowed all_hosts inv x :
  x ∈ hosts (create_hosts allowed all_hosts inv)
  ↔ x ∈ hosts inv ∨ (x ∈ allowed ∧ is_Some (all_hosts !! x)).
Proof.
  unfold create_hosts.
  rewrite (foldl_elem_of _ hosts (λ item y, y = item.1 ∧ y ∈ allowed))
    by apply create_host_hosts.
  split.
  - intros [?|([h hv] & Hin & -> & ?)]; [by left|].
    apply elem_of_iteritems in Hin. right. eauto.
  - intros [?|[? [hv Hhv]]]; [by left|]. right. exists (x, hv).
    by rewrite elem_of_iteritems.
Qed.

Lemma create_hosts_lookup_Some allowed all_hosts inv e hv k v :
  e ∈ allowed → all_hosts !! e = Some hv → hv !! k = Some v →
  variables (create_hosts allowed all_hosts inv) !! (e, k) = Some v.
Proof.
  intros Ha He Hk. unfold create_hosts.
  apply (foldl_lookup_written _ variables (writes_hostvar allowed e k)).
  - apply writes_hostvar_dec.
  - intros. by apply create_host_untouched.
  - intros s [h hv'] Hin (Heq & _ & _). simpl in Heq. subst h.
    apply elem_of_iteritems in Hin. rewrite He in Hin. injection Hin as ->.
    by apply create_host_written.
  - exists (e, hv). rewrite elem_of_iteritems. split; [done|].
    unfold writes_hostvar. simpl. eauto.
Qed.

Lemma create_hosts_lookup_other allowed all_hosts inv e k :
  ¬ (e ∈ allowed ∧ ∃ hv, all_hosts !! e = Some hv ∧ is_Some (hv !! k)) →
  variables (create_hosts allowed all_hosts inv) !! (e, k)
  = variables inv !! (e, k).
Proof.
  intros Hn. unfold create_hosts.
  apply (foldl_lookup_untouched _ variables (writes_hostvar allowed e k)).
  - intros. by apply create_host_untouched.
  - intros [h hv] Hin (Heq & ? & ?). simpl in *. subst h.
    apply elem_of_iteritems in Hin. apply Hn. eauto.
Qed.

End Hosts.

(** * The third loop: edges and group variables *)

Section Edges.
Context `{RT : Runtime} `{DO : DictOrder}.

Lemma attach_hosts_rest allowed g names inv :
  let inv' := attach_hosts allowed g names inv in
  groups inv' = groups inv ∧ child_groups inv' = child_groups inv
  ∧ variables inv' = variables inv ∧ reconciled inv' = reconciled inv.
Proof.
  unfold attach_hosts. simpl. repeat split.
  - apply (foldl_preserved _ groups). intros. by case_bool_decide.
  - apply (foldl_preserved _ child_groups). intros. by case_bool_decide.
  - apply (foldl_preserved _ variables). intros. by case_bool_decide.
  - apply (foldl_preserved _ reconciled). intros. by case_bool_decide.
Qed.

Lemma attach_hosts_hosts allowed g names inv x :
  x ∈ hosts (attach_hosts allowed g names inv)
  ↔ x ∈ hosts inv ∨ (x ∈ names ∧ x ∈ allowed).
Proof.
  unfold attach_hosts.
  rewrite (foldl_elem_of _ hosts (λ n y, y = n ∧ y ∈ allowed)).
  - naive_solver.
  - intros s n y. case_bool_decide; simpl; set_solver.
Qed.

Lemma attach_hosts_members allowed g names inv p :
  p ∈ members (attach_hosts allowed g names inv)
  ↔ p ∈ members inv ∨ (p.1 = g ∧ p.2 ∈ names ∧ p.2 ∈ allowed).
Proof.
  unfold attach_hosts.
  rewrite (foldl_elem_of _ members (λ n q, q = (g, n) ∧ n ∈ allowed)).
  - destruct p as [p1 p2]. simpl. naive_solver.
  - intros s n q. case_bool_decide; simpl; set_solver.
Qed.

Lemma attach_children_rest allowed g names inv :
  let inv' := attach_children allowed g names inv in
  groups inv' = groups inv ∧ hosts inv' = hosts inv
  ∧ members inv' = members inv ∧ variables inv' = variables inv
  ∧ reconciled inv' = reconciled inv.
Proof.
  unfold attach_children. simpl. repeat split.
  - apply (foldl_preserved _ groups). intros. by case_bool_decide.
  - apply (foldl_preserved _ hosts). intros. by case_bool_decide.
  - apply (foldl_preserved _ members). intros. by case_bool_decide.
  - apply (foldl_preserved _ variables). intros. by case_bool_decide.
  - apply (foldl_preserved _ reconciled). intros. by case_bool_decide.
Qed.

Lemma attach_children_child_groups allowed g names inv p :
  p ∈ child_groups (attach_children allowed g names inv)
  ↔ p ∈ child_groups inv ∨ (p.1 = g ∧ p.2 ∈ names ∧ p.2 ∈ allowed).
Proof.
  unfold attach_children.
  rewrite (foldl_elem_of _ child_groups (λ n q, q = (g, n) ∧ n ∈ allowed)).
  - destruct p as [p1 p2]. simpl. naive_solver.
  - intros s n q. case_bool_decide; simpl; set_solver.
Qed.

(** One iteration of the third loop, field by field. *)
Lemma relate_group_cases allowed_h allowed_g inv g c :
  let inv' := relate_group allowed_h allowed_g inv (g, c) in
  groups inv' = groups inv ∧ reconciled inv' = reconciled inv
  ∧ (∀ x, x ∈ hosts inv'
          ↔ x ∈ hosts inv
            ∨ (links allowed_g g ∧ x ∈ get_hosts c ∧ x ∈ allowed_h))
  ∧ (∀ p, p ∈ members inv'
          ↔ p ∈ members inv
            ∨ (links allowed_g g ∧ p.1 = g ∧ p.2 ∈ get_hosts c
               ∧ p.2 ∈ allowed_h))
  ∧ (∀ p, p ∈ child_groups inv'
          ↔ p ∈ child_groups inv
            ∨ (links allowed_g g ∧ p.1 = g ∧ p.2 ∈ get_children c
               ∧ p.2 ∈ allowed_g)).
Proof.
  unfold relate_group, links. simpl.
  case_bool_decide as Hg; [naive_solver|].
  assert (g ∈ allowed_g) by (by destruct (decide (g ∈ allowed_g))).
  set (linked := attach_children allowed_g g (get_children c)
                   (attach_hosts allowed_h g (get_hosts c) inv)).
  assert (groups linked = groups inv ∧ reconciled linked = reconciled inv
    ∧ (∀ x, x ∈ hosts linked
            ↔ x ∈ hosts inv ∨ (x ∈ get_hosts c ∧ x ∈ allowed_h))
    ∧ (∀ p, p ∈ members linked
            ↔ p ∈ members inv
              ∨ (p.1 = g ∧ p.2 ∈ get_hosts c ∧ p.2 ∈ allowed_h))
    ∧ (∀ p, p ∈ child_groups linked
            ↔ p ∈ child_groups inv
              ∨ (p.1 = g ∧ p.2 ∈ get_children c ∧ p.2 ∈ allowed_g)))
    as (Lg & Lr & Lh & Lm & Lc).
  { unfold linked.
    destruct (attach_children_rest allowed_g g (get_children c)
                (attach_hosts allowed_h g (get_hosts c) inv))
      as (-> & -> & -> & _ & ->).
    destruct (attach_hosts_rest allowed_h g (get_hosts c) inv)
      as (-> & Hc & _ & ->).
    repeat split; try done.
    - apply attach_hosts_hosts.
    - apply attach_hosts_hosts.
    - apply attach_hosts_members.
    - apply attach_hosts_members.
    - rewrite attach_children_child_groups, Hc. done.
    - rewrite attach_children_child_groups, Hc. done. }
  clearbody linked.
  destruct (decide (g = "all")) as [Ha|Ha], (decide (g = "_meta")) as [Hm|Hm];
    rewrite ?(bool_decide_eq_true_2 (g ≠ "all")),
            ?(bool_decide_eq_false_2 (g ≠ "all")),
            ?(bool_decide_eq_true_2 (g ≠ "_meta")),
            ?(bool_decide_eq_false_2 (g ≠ "_meta")) by auto; simpl;
    try (destruct (set_variables_rest g (get_vars c) inv)
           as (-> & -> & -> & -> & ->));
    try (destruct (set_variables_rest g (get_vars c) linked)
           as (-> & -> & -> & -> & ->));
    naive_solver.
Qed.

Lemma writes_groupvar_dec allowed_g e k item :
  writes_groupvar allowed_g e k item ∨ ¬ writes_groupvar allowed_g e k item.
Proof.
  unfold writes_groupvar.
  destruct (decide (item.1 = e ∧ e ∈ allowed_g ∧ e ≠ "_meta"
                    ∧ is_Some (get_vars item.2 !! k))); auto.
Qed.

Lemma relate_group_untouched allowed_h allowed_g inv item e k :
  ¬ writes_groupvar allowed_g e k item →
  variables (relate_group allowed_h allowed_g inv item) !! (e, k)
  = variables inv !! (e, k).
Proof.
  destruct item as [g c]. unfold writes_groupvar, relate_group. simpl.
  intros Hn. case_bool_decide as Hg; [done|].
  assert (g ∈ allowed_g) by (by destruct (decide (g ∈ allowed_g))).
  assert (∀ inv0, variables
            (attach_children allowed_g g (get_children c)
               (attach_hosts allowed_h g (get_hosts c) inv0))
          = variables inv0) as Hlinked.
  { intros inv0.
    destruct (attach_children_rest allowed_g g (get_children c)
                (attach_hosts allowed_h g (get_hosts c) inv0))
      as (_ & _ & _ & -> & _).
    by destruct (attach_hosts_rest allowed_h g (get_hosts c) inv0)
      as (_ & _ & -> & _). }
  destruct (bool_decide (g ≠ "_meta")) eqn:Hm.
  - apply bool_decide_eq_true in Hm.
    rewrite set_variables_lookup_other.
    + destruct (bool_decide (g ≠ "all")); simpl; by rewrite ?Hlinked.
    + destruct (decide (e = g)) as [->|]; [|by left]. right.
      destruct (get_vars c !! k) eqn:?; [|done]. destruct Hn. eauto.
  - destruct (bool_decide (g ≠ "all")); simpl; by rewrite ?Hlinked.
Qed.

Lemma relate_group_written allowed_h allowed_g inv g c k v :
  g ∈ allowed_g → g ≠ "_meta" → get_vars c !! k = Some v →
  variables (relate_group allowed_h allowed_g inv (g, c)) !! (g, k) = Some v.
Proof.
  intros Hg Hm Hk. unfold relate_group.
  rewrite bool_decide_eq_false_2 by (by intros ?).
  rewrite (bool_decide_eq_true_2 (g ≠ "_meta")) by done.
  by apply set_variables_lookup_Some.
Qed.

Lemma relate_groups_rest allowed_h allowed_g inventory inv :
  let inv' := relate_groups allowed_h allowed_g inventory inv in
  groups inv' = groups inv ∧ reconciled inv' = reconciled inv.
Proof.
  unfold relate_groups. simpl. split.
  - apply (foldl_preserved _ groups). intros s [g c].
    apply relate_group_cases.
  - apply (foldl_preserved _ reconciled). intros s [g c].
    apply relate_group_cases.
Qed.

Lemma elem_of_relate_groups_hosts allowed_h allowed_g inventory inv x :
  x ∈ hosts (relate_groups allowed_h allowed_g inventory inv)
  ↔ x ∈ hosts inv
    ∨ ∃ g c, inventory !! g = Some c ∧ links allowed_g g
             ∧ x ∈ get_hosts c ∧ x ∈ allowed_h.
Proof.
  unfold relate_groups.
  rewrite (foldl_elem_of _ hosts
             (λ item y, links allowed_g item.1 ∧ y ∈ get_hosts item.2
                        ∧ y ∈ allowed_h)).
  - split; (intros [?|Hr]; [by left|right]).
    + destruct Hr as ([g c] & Hin & ?). apply elem_of_iteritems in Hin.
      by exists g, c.
    + destruct Hr as (g & c & Hin & ?). exists (g, c).
      by rewrite elem_of_iteritems.
  - intros s [g c] y. apply relate_group_cases.
Qed.

Lemma elem_of_relate_groups_members allowed_h allowed_g inventory inv p :
  p ∈ members (relate_groups allowed_h allowed_g inventory inv)
  ↔ p ∈ members inv
    ∨ ∃ c, inventory !! p.1 = Some c ∧ links allowed_g p.1
           ∧ p.2 ∈ get_hosts c ∧ p.2 ∈ allowed_h.
Proof.
  unfold relate_groups.
  rewrite (foldl_elem_of _ members
             (λ item q, links allowed_g item.1 ∧ q.1 = item.1
                        ∧ q.2 ∈ get_hosts item.2 ∧ q.2 ∈ allowed_h)).
  - split; (intros [?|Hr]; [by left|right]).
    + destruct Hr as ([g c] & Hin & ? & Heq & ?). simpl in *. subst g.
      apply elem_of_iteritems in Hin. by exists c.
    + destruct Hr as (c & Hin & ? & ? & ?). exists (p.1, c).
      rewrite elem_of_iteritems. simpl. done.
  - intros s [g c] q. apply relate_group_cases.
Qed.

Lemma elem_of_relate_groups_children allowed_h allowed_g inventory inv p :
  p ∈ child_groups (relate_groups allowed_h allowed_g inventory inv)
  ↔ p ∈ child_groups inv
    ∨ ∃ c, inventory !! p.1 = Some c ∧ links allowed_g p.1
           ∧ p.2 ∈ get_children c ∧ p.2 ∈ allowed_g.
Proof.
  unfold relate_groups.
  rewrite (foldl_elem_of _ child_groups
             (λ item q, links allowed_g item.1 ∧ q.1 = item.1
                        ∧ q.2 ∈ get_children item.2 ∧ q.2 ∈ allowed_g)).
  - split; (intros [?|Hr]; [by left|right]).
    + destruct Hr as ([g c] & Hin & ? & Heq & ?). simpl in *. subst g.
      apply elem_of_iteritems in Hin. by exists c.
    + destruct Hr as (c & Hin & ? & ? & ?). exists (p.1, c).
      rewrite elem_of_iteritems. simpl. done.
  - intros s [g c] q. apply relate_group_cases.
Qed.

(** The variables after the third loop: a group's own [vars] where the loop
    wrote them, the previous value elsewhere. *)
Lemma relate_groups_lookup allowed_h allowed_g inventory inv e k :
  "_meta" ∉ allowed_g →
  variables (relate_groups allowed_h allowed_g inventory inv) !! (e, k)
  = or_else (group_var allowed_g inventory e k) (variables inv !! (e, k)).
Proof.
  intros Hmeta. unfold relate_groups, group_var.
  destruct (decide (e ∈ allowed_g)) as [He|He];
    [destruct (inventory !! e) as [c|] eqn:Hc;
       [destruct (get_vars c !! k) as [v|] eqn:Hk|]|]; simpl.
  - apply (foldl_lookup_written _ variables (writes_groupvar allowed_g e k)).
    + apply writes_groupvar_dec.
    + intros. by apply relate_group_untouched.
    + intros s [g c'] Hin (Heq & _ & ? & _). simpl in Heq. subst g.
      apply elem_of_iteritems in Hin. rewrite Hc in Hin. injection Hin as ->.
      by apply relate_group_written.
    + exists (e, c). rewrite elem_of_iteritems. split; [done|].
      unfold writes_groupvar. simpl. repeat split; eauto.
      by intros ->.
  - apply (foldl_lookup_untouched _ variables (writes_groupvar allowed_g e k)).
    + intros. by apply relate_group_untouched.
    + intros [g c'] Hin (Heq & _ & _ & Hs). simpl in *. subst g.
      apply elem_of_iteritems in Hin. rewrite Hc in Hin. injection Hin as ->.
      rewrite Hk in Hs. by destruct Hs.
  - apply (foldl_lookup_untouched _ variables (writes_groupvar allowed_g e k)).
    + intros. by apply relate_group_untouched.
    + intros [g c'] Hin (Heq & _). simpl in *. subst g.
      apply elem_of_iteritems in Hin. congruence.
  - apply (foldl_lookup_untouched _ variables (writes_groupvar allowed_g e k)).
    + intros. by apply relate_group_untouched.
    + by intros item _ (_ & ? & _).
Qed.

(** The variables after the second loop. *)
Lemma create_hosts_lookup allowed all_hosts inv e k :
  variables (create_hosts allowed all_hosts inv) !! (e, k)
  = or_else (host_var allowed all_hosts e k) (variables inv !! (e, k)).
Proof.
  unfold host_var.
  destruct (decide (e ∈ allowed)) as [He|He];
    [destruct (all_hosts !! e) as [hv|] eqn:Hhv;
       [destruct (hv !! k) as [v|] eqn:Hk|]|]; simpl.
  - by eapply create_hosts_lookup_Some.
  - apply create_hosts_lookup_other. intros (_ & hv' & Hhv' & Hs).
    rewrite Hhv in Hhv'. injection Hhv' as <-. rewrite Hk in Hs.
    by destruct Hs.
  - apply create_hosts_lookup_other. intros (_ & hv' & ? & _). congruence.
  - apply create_hosts_lookup_other. by intros [? _].
Qed.

End Edges.

(** * The assembled graph *)

Section Assembly.
Context `{RT : Runtime} `{DO : DictOrder}.
Implicit Types (hp hgp gp : option Pattern) (inventory : gmap string Content)
  (all_hosts : gmap string (gmap string json)) (inv : Inventory).


(** With [_meta.hostvars] in the document the three loops run to the end. *)
Lemma build_graph_Ok hp hgp gp inventory all_hosts inv :
  meta_hostvars inventory = Ok all_hosts →
  build_graph hp hgp gp inventory inv
  = Ok (assemble hp hgp gp inventory all_hosts inv).
Proof. intros H. unfold build_graph, assemble. by rewrite H. Qed.


Lemma build_graph_inv hp hgp gp inventory inv g :
  build_graph hp hgp gp inventory inv = Ok g →
  ∃ all_hosts, meta_hostvars inventory = Ok all_hosts
               ∧ g = assemble hp hgp gp inventory all_hosts inv.
Proof.
  unfold build_graph, assemble.
  destruct (meta_hostvars inventory) as [d|e]; [|done].
  intros Heq. injection Heq as <-. eauto.
Qed.

(** The allowed sets do not depend on the graph the run starts from. *)
Lemma allowed_hosts_start hp hgp gp inventory inv inv' :
  allowed_hosts (discover hp hgp gp inventory inv)
  = allowed_hosts (discover hp hgp gp inventory inv').
Proof. apply set_eq. intros h. by rewrite !elem_of_allowed_hosts. Qed.

Lemma allowed_groups_start hp hgp gp inventory inv inv' :
  allowed_groups (discover hp hgp gp inventory inv)
  = allowed_groups (discover hp hgp gp inventory inv').
Proof. apply set_eq. intros h. by rewrite !elem_of_allowed_groups. Qed.

Lemma meta_not_allowed hp hgp gp inventory inv :
  "_meta" ∉ allowed_groups (discover hp hgp gp inventory inv).
Proof.
  rewrite elem_of_allowed_groups. unfold admits_group.
  intros [_ H]. apply andb_true_iff in H as [_ H].
  by apply bool_decide_eq_true in H.
Qed.

Lemma assemble_groups hp hgp gp inventory all_hosts inv x :
  x ∈ groups (assemble hp hgp gp inventory all_hosts inv)
  ↔ x ∈ groups inv ∨ x ∈ allowed_groups (discover hp hgp gp inventory inv).
Proof.
  unfold assemble.
  destruct (relate_groups_rest
              (allowed_hosts (discover hp hgp gp inventory inv))
              (allowed_groups (discover hp hgp gp inventory inv)) inventory
              (create_hosts (allowed_hosts (discover hp hgp gp inventory inv))
                 all_hosts (discovered (discover hp hgp gp inventory inv))))
    as [-> _].
  destruct (create_hosts_rest
              (allowed_hosts (discover hp hgp gp inventory inv)) all_hosts
              (discovered (discover hp hgp gp inventory inv))) as (-> & _).
  apply elem_of_discovered_groups.
Qed.

Lemma assemble_reconciled hp hgp gp inventory all_hosts inv :
  reconciled (assemble hp hgp gp inventory all_hosts inv) = reconciled inv.
Proof.
  unfold assemble.
  destruct (relate_groups_rest
              (allowed_hosts (discover hp hgp gp inventory inv))
              (allowed_groups (discover hp hgp gp inventory inv)) inventory
              (create_hosts (allowed_hosts (discover hp hgp gp inventory inv))
                 all_hosts (discovered (discover hp hgp gp inventory inv))))
    as [_ ->].
  destruct (create_hosts_rest
              (allowed_hosts (discover hp hgp gp inventory inv)) all_hosts
              (discovered (discover hp hgp gp inventory inv)))
    as (_ & _ & _ & ->).
  apply discovered_rest.
Qed.

(** A host is created by the second loop (allowed and in [hostvars]) or by
    [add_host(host_name, group_name)] in the third. *)
Lemma assemble_hosts hp hgp gp inventory all_hosts inv x :
  let st := discover hp hgp gp inventory inv in
  x ∈ hosts (assemble hp hgp gp inventory all_hosts inv)
  ↔ x ∈ hosts inv
    ∨ (x ∈ allowed_hosts st ∧ is_Some (all_hosts !! x))
    ∨ ∃ g c, inventory !! g = Some c ∧ links (allowed_groups st) g
             ∧ x ∈ get_hosts c ∧ x ∈ allowed_hosts st.
Proof.
  simpl. unfold assemble.
  rewrite elem_of_relate_groups_hosts, elem_of_create_hosts.
  destruct (discovered_rest hp hgp gp inventory inv) as (-> & _).
  tauto.
Qed.

Lemma assemble_members hp hgp gp inventory all_hosts inv p :
  let st := discover hp hgp gp inventory inv in
  p ∈ members (assemble hp hgp gp inventory all_hosts inv)
  ↔ p ∈ members inv
    ∨ ∃ c, inventory !! p.1 = Some c ∧ links (allowed_groups st) p.1
           ∧ p.2 ∈ get_hosts c ∧ p.2 ∈ allowed_hosts st.
Proof.
  simpl. unfold assemble. rewrite elem_of_relate_groups_members.
  destruct (create_hosts_rest
              (allowed_hosts (discover hp hgp gp inventory inv)) all_hosts
              (discovered (discover hp hgp gp inventory inv)))
    as (_ & -> & _).
  destruct (discovered_rest hp hgp gp inventory inv) as (_ & -> & _).
  done.
Qed.

Lemma assemble_child_groups hp hgp gp inventory all_hosts inv p :
  let st := discover hp hgp gp inventory inv in
  p ∈ child_groups (assemble hp hgp gp inventory all_hosts inv)
  ↔ p ∈ child_groups inv
    ∨ ∃ c, inventory !! p.1 = Some c ∧ links (allowed_groups st) p.1
           ∧ p.2 ∈ get_children c ∧ p.2 ∈ allowed_groups st.
Proof.
  simpl. unfold assemble. rewrite elem_of_relate_groups_children.
  destruct (create_hosts_rest
              (allowed_hosts (discover hp hgp gp inventory inv)) all_hosts
              (discovered (discover hp hgp gp inventory inv)))
    as (_ & _ & -> & _).
  destruct (discovered_rest hp hgp gp inventory inv) as (_ & _ & -> & _).
  done.
Qed.

(** Every variable of the assembled graph: the group loop's value if it
    wrote one, else the host loop's, else what was there before. *)
Lemma assemble_variables hp hgp gp inventory all_hosts inv e k :
  let st := discover hp hgp gp inventory inv in
  variables (assemble hp hgp gp inventory all_hosts inv) !! (e, k)
  = or_else (group_var (allowed_groups st) inventory e k)
      (or_else (host_var (allowed_hosts st) all_hosts e k)
         (variables inv !! (e, k))).
Proof.
  simpl. unfold assemble.
  rewrite relate_groups_lookup by apply meta_not_allowed.
  rewrite create_hosts_lookup.
  by destruct (discovered_rest hp hgp gp inventory inv) as (_ & _ & _ & -> & _).
Qed.

End Assembly.

(** * The admission rules in the specification's words *)

Section Rules.
Context `{RT : Runtime} `{DO : DictOrder}.
Implicit Types (hp hgp gp : option Pattern) (inventory : gmap string Content).

Lemma skip_group_rule gp g : skip_group gp g = false ↔ group_rule gp g.
Proof.
  unfold skip_group, group_rule. destruct gp as [p|].
  - destruct (re_search p g) eqn:Hs; simpl.
    + split; [|done]. intros _. right. left. eauto.
    + case_bool_decide as Ha; split; try done.
      * intros [?|[(q & Hq & Hm)|?]]; [done| |done]. congruence.
      * intros _. right. right. by destruct (decide (g = "all")).
  - split; [by left|done].
Qed.

Lemma admits_group_rule gp g :
  admits_group gp g = true ↔ g ≠ "_meta" ∧ group_rule gp g.
Proof.
  unfold admits_group. rewrite andb_true_iff, negb_true_iff,
    bool_decide_eq_true, skip_group_rule. tauto.
Qed.

Lemma scan_group_rule hgp g : scan_group hgp g = true ↔ hostgroup_rule hgp g.
Proof.
  unfold scan_group, hostgroup_rule. destruct hgp as [p|].
  - split; [eauto|]. intros [?|(q & Hq & ?)]; congruence.
  - split; [by left|done].
Qed.

Lemma host_passes_rule hp h : host_passes hp h = true ↔ host_rule hp h.
Proof.
  unfold host_passes, host_rule. destruct hp as [p|].
  - split; [eauto|]. intros [?|(q & Hq & ?)]; congruence.
  - split; [by left|done].
Qed.

(** The root group passes the group rule under every pattern. *)
Lemma root_group_admitted gp : admits_group gp "all" = true.
Proof. apply admits_group_rule. split; [done|]. right. by right. Qed.

(** [allowed_groups] in the specification's words. *)
Lemma allowed_groups_rule hp hgp gp inventory inv g :
  g ∈ allowed_groups (discover hp hgp gp inventory inv)
  ↔ is_Some (inventory !! g) ∧ g ≠ "_meta" ∧ group_rule gp g.
Proof. by rewrite elem_of_allowed_groups, admits_group_rule. Qed.

(** [allowed_hosts] in the specification's words. *)
Lemma allowed_hosts_rule hp hgp gp inventory inv h :
  h ∈ allowed_hosts (discover hp hgp gp inventory inv)
  ↔ host_rule hp h ∧ listed_in_scanned_group hgp gp inventory h.
Proof.
  rewrite elem_of_allowed_hosts. unfold listed_in_scanned_group. split.
  - intros (g & c & Hc & Ha & Hs & Hh & Hp).
    apply admits_group_rule in Ha as [??]. apply scan_group_rule in Hs.
    apply host_passes_rule in Hp. split; [done|]. by exists g, c.
  - intros [Hp (g & c & Hc & Hm & Hg & Hs & Hh)]. exists g, c.
    rewrite admits_group_rule, scan_group_rule, host_passes_rule. done.
Qed.

End Rules.

(** * Hosts and names in the built graph *)

Section Presence.
Context `{RT : Runtime} `{DO : DictOrder}.
Implicit Types (hp hgp gp : option Pattern) (inventory : gmap string Content)
  (all_hosts : gmap string (gmap string json)) (inv : Inventory).

(** The groups whose edges the third loop adds, in the specification's
    words. *)
Lemma links_rule hp hgp gp inventory inv n :
  is_Some (inventory !! n) →
  links (allowed_groups (discover hp hgp gp inventory inv)) n
  ↔ n ≠ "_meta" ∧ n ≠ "all" ∧ group_rule gp n.
Proof.
  intros Hn. unfold links. rewrite allowed_groups_rule. tauto.
Qed.

(** C1, amended. On a graph that starts without hosts, a host is present
    after the build if and only if the host filter is unset or matches its
    name, it is listed under at least one group passing the group rule and the
    hostgroup rule, and it either appears in [_meta.hostvars] or is listed
    under an admitted group other than the root group ([add_host] of the
    third loop creates it then). *)
Theorem host_present_iff hp hgp gp inventory all_hosts inv h :
  meta_hostvars inventory = Ok all_hosts →
  hosts inv = ∅ →
  ∃ g, build_graph hp hgp gp inventory inv = Ok g
       ∧ (h ∈ hosts g
          ↔ host_rule hp h
            ∧ listed_in_scanned_group hgp gp inventory h
            ∧ (is_Some (all_hosts !! h)
               ∨ ∃ n c, inventory !! n = Some c ∧ n ≠ "_meta" ∧ n ≠ "all"
                        ∧ group_rule gp n ∧ h ∈ get_hosts c)).
Proof.
  intros Hmeta Hfresh. eexists. split; [by apply build_graph_Ok|].
  rewrite assemble_hosts, Hfresh. split.
  - intros [Hin|[[Ha ?]|(n & c & Hc & Hl & Hh & Ha)]].
    + by apply not_elem_of_empty in Hin.
    + apply allowed_hosts_rule in Ha as [??]. auto.
    + apply allowed_hosts_rule in Ha as [??].
      apply links_rule in Hl as (? & ? & ?); [|eauto].
      repeat split; try done. right. by exists n, c.
  - intros (Hr & Hs & Hex).
    assert (h ∈ allowed_hosts (discover hp hgp gp inventory inv))
      by (by apply allowed_hosts_rule).
    destruct Hex as [?|(n & c & Hc & ? & ? & ? & ?)].
    + right. left. done.
    + right. right. exists n, c. rewrite links_rule by eauto. done.
Qed.

(** C2. Whatever the document and the filters, nothing enters the graph
    under a name that is not allowed: a name outside [allowed_hosts] is a
    host, or the target of a membership edge, only if it already was before
    the build; a name outside [allowed_groups] is a group, or either end of a
    child edge, or the source of a membership edge, only if it already was;
    and a name outside both sets has no variable written. Started on an empty
    graph, every child edge therefore points to an allowed group and every
    membership edge to an allowed host. *)
Theorem only_allowed_names_enter hp hgp gp inventory all_hosts inv :
  meta_hostvars inventory = Ok all_hosts →
  ∃ g, build_graph hp hgp gp inventory inv = Ok g
       ∧ let st := discover hp hgp gp inventory inv in
         (∀ h, h ∉ allowed_hosts st →
               (h ∈ hosts g → h ∈ hosts inv)
               ∧ ∀ n, (n, h) ∈ members g → (n, h) ∈ members inv)
         ∧ (∀ n, n ∉ allowed_groups st →
                 (n ∈ groups g → n ∈ groups inv)
                 ∧ (∀ x, (n, x) ∈ members g → (n, x) ∈ members inv)
                 ∧ (∀ x, (n, x) ∈ child_groups g → (n, x) ∈ child_groups inv)
                 ∧ (∀ x, (x, n) ∈ child_groups g
                         → (x, n) ∈ child_groups inv))
         ∧ (∀ e k, e ∉ allowed_hosts st → e ∉ allowed_groups st →
                   variables g !! (e, k) = variables inv !! (e, k)).
Proof.
  intros Hmeta. eexists. split; [by apply build_graph_Ok|]. simpl.
  split; [|split].
  - intros h Hh. split.
    + rewrite assemble_hosts. intros [?|[[??]|(n & c & _ & _ & _ & ?)]]; done.
    + intros n. rewrite assemble_members. simpl.
      intros [?|(c & _ & _ & _ & ?)]; done.
  - intros n Hn. repeat split.
    + rewrite assemble_groups. intros [?|?]; done.
    + intros x. rewrite assemble_members. simpl.
      intros [?|(c & _ & [? _] & _)]; done.
    + intros x. rewrite assemble_child_groups. simpl.
      intros [?|(c & _ & [? _] & _)]; done.
    + intros x. rewrite assemble_child_groups. simpl.
      intros [?|(c & _ & _ & _ & ?)]; done.
  - intros e k Hh Hg. rewrite assemble_variables. simpl.
    unfold group_var, host_var.
    by rewrite !decide_False by done.
Qed.

End Presence.

(** * Group variables *)

Section GroupVars.
Context `{RT : Runtime} `{DO : DictOrder}.
Implicit Types (hp hgp gp : option Pattern) (inventory : gmap string Content)
  (all_hosts : gmap string (gmap string json)) (inv : Inventory).

(** The allowed groups depend on the groups filter alone. *)
Lemma allowed_groups_filters hp1 hgp1 hp2 hgp2 gp inventory inv1 inv2 :
  allowed_groups (discover hp1 hgp1 gp inventory inv1)
  = allowed_groups (discover hp2 hgp2 gp inventory inv2).
Proof. apply set_eq. intros n. by rewrite !elem_of_allowed_groups. Qed.

Lemma group_var_Some hp hgp gp inventory inv n c k :
  inventory !! n = Some c → n ≠ "_meta" → group_rule gp n →
  group_var (allowed_groups (discover hp hgp gp inventory inv)) inventory n k
  = get_vars c !! k.
Proof.
  intros Hc Hm Hr. unfold group_var.
  rewrite decide_True by (apply allowed_groups_rule; eauto).
  by rewrite Hc.
Qed.

(** One half: every entry of the [vars] of an admitted key is a variable of
    that group in the built graph. *)
Lemma admitted_group_vars_copied hp hgp gp inventory all_hosts inv n c k v :
  meta_hostvars inventory = Ok all_hosts →
  inventory !! n = Some c → n ≠ "_meta" → group_rule gp n →
  get_vars c !! k = Some v →
  ∃ g, build_graph hp hgp gp inventory inv = Ok g
       ∧ variables g !! (n, k) = Some v.
Proof.
  intros Hmeta Hc Hm Hr Hk. eexists. split; [by apply build_graph_Ok|].
  rewrite assemble_variables. simpl.
  by rewrite (group_var_Some _ _ _ _ _ _ c), Hk.
Qed.

(** The other half: the [vars] of a rejected group go nowhere. *)
Lemma rejected_group_vars_dropped hp hgp gp inventory all_hosts inv n k :
  meta_hostvars inventory = Ok all_hosts →
  ¬ group_rule gp n → all_hosts !! n = None →
  ∃ g, build_graph hp hgp gp inventory inv = Ok g
       ∧ variables g !! (n, k) = variables inv !! (n, k).
Proof.
  intros Hmeta Hr Hn. eexists. split; [by apply build_graph_Ok|].
  rewrite assemble_variables. simpl. unfold group_var, host_var.
  rewrite decide_False by (rewrite allowed_groups_rule; tauto).
  rewrite Hn. by destruct (decide _).
Qed.

(** C3, amended. Take a top-level key other than [_meta]. If it passes the
    group rule (it is then in [allowed_groups]; the root group [all] always
    does), every entry of the group's [vars] is a variable of that group in
    the built graph. If the groups filter rejects it, the third loop skips
    it: the build does not register it as a group and copies nothing of its
    [vars]; what is recorded under its name is what the second loop wrote for
    an allowed host of that name, or else what the starting inventory held,
    so that without such a host its variables are untouched. *)
Theorem group_vars_copied_iff_admitted hp hgp gp inventory all_hosts inv n c :
  meta_hostvars inventory = Ok all_hosts →
  inventory !! n = Some c → n ≠ "_meta" →
  ∃ g, build_graph hp hgp gp inventory inv = Ok g
       ∧ (n = "all" → group_rule gp n)
       ∧ (group_rule gp n →
          ∀ k v, get_vars c !! k = Some v → variables g !! (n, k) = Some v)
       ∧ (¬ group_rule gp n →
          (n ∈ groups g → n ∈ groups inv)
          ∧ (∀ k, variables g !! (n, k)
                  = or_else
                      (host_var
                         (allowed_hosts (discover hp hgp gp inventory inv))
                         all_hosts n k)
                      (variables inv !! (n, k)))
          ∧ (all_hosts !! n = None →
             ∀ k, variables g !! (n, k) = variables inv !! (n, k))).
Proof.
  intros Hmeta Hc Hm. eexists. split; [by apply build_graph_Ok|].
  split; [|split].
  - intros ->. right. by right.
  - intros Hr k v Hk. rewrite assemble_variables. simpl.
    by rewrite (group_var_Some _ _ _ _ _ _ c), Hk.
  - intros Hr.
    assert (n ∉ allowed_groups (discover hp hgp gp inventory inv)) as Hn
      by (rewrite allowed_groups_rule; tauto).
    assert (∀ k, variables (assemble hp hgp gp inventory all_hosts inv)
                   !! (n, k)
                 = or_else
                     (host_var
                        (allowed_hosts (discover hp hgp gp inventory inv))
                        all_hosts n k)
                     (variables inv !! (n, k))) as Hv.
    { intros k. rewrite assemble_variables. simpl. unfold group_var.
      by rewrite decide_False. }
    split; [|split].
    + rewrite assemble_groups. by intros [?|?].
    + exact Hv.
    + intros Hno k. rewrite Hv. unfold host_var. rewrite Hno.
      by destruct (decide _).
Qed.

(** C5, amended. Take two runs that differ in the hosts filter and the
    hostgroups filter only, and a group admitted by their common groups
    filter. Every entry of the group's own [vars] is a variable of the group
    in both graphs, whatever happens to its hosts; and when no host of
    [_meta.hostvars] bears the group's name, the two graphs agree on every
    variable of the group. *)
Theorem group_vars_ignore_host_filters
    hp1 hgp1 hp2 hgp2 gp inventory all_hosts inv n c :
  meta_hostvars inventory = Ok all_hosts →
  inventory !! n = Some c → n ≠ "_meta" → group_rule gp n →
  ∃ g1 g2,
    build_graph hp1 hgp1 gp inventory inv = Ok g1
    ∧ build_graph hp2 hgp2 gp inventory inv = Ok g2
    ∧ (∀ k v, get_vars c !! k = Some v →
              variables g1 !! (n, k) = Some v
              ∧ variables g2 !! (n, k) = Some v)
    ∧ (all_hosts !! n = None →
       ∀ k, variables g1 !! (n, k) = variables g2 !! (n, k)).
Proof.
  intros Hmeta Hc Hm Hr. do 2 eexists.
  split; [by apply build_graph_Ok|]. split; [by apply build_graph_Ok|].
  split.
  - intros k v Hk. rewrite !assemble_variables. simpl.
    by rewrite !(group_var_Some _ _ _ _ _ _ c), Hk.
  - intros Hn k. rewrite !assemble_variables. simpl.
    rewrite !(group_var_Some _ _ _ _ _ _ c) by done.
    unfold host_var. rewrite Hn. by repeat destruct (decide _).
Qed.

(** C6. A top-level key is registered as a group by the first loop exactly
    when it is not [_meta] and the groups pattern is unset, or matches it, or
    the key is [all]; it then sits in [allowed_groups] as well. [_meta] is
    never registered, and the later loops register nothing: the groups of the
    built graph are those of the first loop. *)
Theorem group_registered_iff hp hgp gp inventory inv n :
  is_Some (inventory !! n) →
  let st := discover hp hgp gp inventory inv in
  (n ∈ allowed_groups st ↔ n ≠ "_meta" ∧ group_rule gp n)
  ∧ (n ∈ groups (discovered st)
     ↔ n ∈ groups inv ∨ (n ≠ "_meta" ∧ group_rule gp n))
  ∧ ("_meta" ∉ allowed_groups st)
  ∧ ("_meta" ∈ groups (discovered st) → "_meta" ∈ groups inv)
  ∧ (∀ g, build_graph hp hgp gp inventory inv = Ok g →
          groups g = groups (discovered st)).
Proof.
  intros Hn. simpl. split; [|split; [|split; [|split]]].
  - rewrite allowed_groups_rule. tauto.
  - rewrite elem_of_discovered_groups, allowed_groups_rule. tauto.
  - apply meta_not_allowed.
  - rewrite elem_of_discovered_groups. intros [?|Hm]; [done|].
    by apply meta_not_allowed in Hm.
  - intros g (all_hosts & _ & ->)%build_graph_inv. apply set_eq. intros x.
    by rewrite assemble_groups, elem_of_discovered_groups.
Qed.

(** C10. The exemption of the root group belongs to the groups filter only.
    Under a hostgroups pattern that does not match [all], the root group is
    still admitted, but a host listed under no other group that passes both
    rules is not allowed and is not part of the built graph: it is no host
    and no member, unless it was one before the build. *)
Theorem root_hosts_need_scanned_group
    hp hgp gp inventory all_hosts inv (p : Pattern) h :
  meta_hostvars inventory = Ok all_hosts →
  hgp = Some p → re_search p "all" = false →
  (∀ n c, inventory !! n = Some c → n ≠ "all" → n ≠ "_meta" →
          group_rule gp n → hostgroup_rule hgp n → h ∉ get_hosts c) →
  let st := discover hp hgp gp inventory inv in
  (is_Some (inventory !! "all") → "all" ∈ allowed_groups st)
  ∧ (h ∉ allowed_hosts st)
  ∧ ∃ g, build_graph hp hgp gp inventory inv = Ok g
         ∧ (h ∈ hosts g → h ∈ hosts inv)
         ∧ (∀ n, (n, h) ∈ members g → (n, h) ∈ members inv).
Proof.
  intros Hmeta -> Hp Hno. simpl.
  assert (h ∉ allowed_hosts (discover hp (Some p) gp inventory inv)) as Hh.
  { rewrite allowed_hosts_rule.
    intros [_ (n & c & Hc & Hm & Hr & Hs & Hin)].
    destruct (decide (n = "all")) as [->|Hn].
    - destruct Hs as [?|(q & [= <-] & ?)]; congruence.
    - by apply (Hno n c). }
  split; [|split; [done|]].
  - intros Hall. apply allowed_groups_rule. repeat split; try done.
    right. by right.
  - eexists. split; [by apply build_graph_Ok|]. split.
    + rewrite assemble_hosts.
      intros [?|[[??]|(n & c & _ & _ & _ & ?)]]; done.
    + intros n. rewrite assemble_members. simpl.
      intros [?|(c & _ & _ & _ & ?)]; done.
Qed.

End GroupVars.

(** * Determinism and idempotence *)

Section Determinism.
Context `{RT : Runtime}.
Implicit Types (hp hgp gp : option Pattern) (inventory : gmap string Content)
  (all_hosts : gmap string (gmap string json)) (inv : Inventory).

Lemma Inventory_eq (i1 i2 : Inventory) :
  groups i1 = groups i2 → hosts i1 = hosts i2 → members i1 = members i2 →
  child_groups i1 = child_groups i2 → variables i1 = variables i2 →
  reconciled i1 = reconciled i2 → i1 = i2.
Proof. destruct i1, i2. simpl. congruence. Qed.

(** The allowed sets are the same under every iteration order and from
    every starting graph. *)
Lemma allowed_hosts_order (O1 O2 : DictOrder) hp hgp gp inventory inv1 inv2 :
  allowed_hosts (discover (DO:=O1) hp hgp gp inventory inv1)
  = allowed_hosts (discover (DO:=O2) hp hgp gp inventory inv2).
Proof. apply set_eq. intros h. by rewrite !elem_of_allowed_hosts. Qed.

Lemma allowed_groups_order (O1 O2 : DictOrder) hp hgp gp inventory inv1 inv2 :
  allowed_groups (discover (DO:=O1) hp hgp gp inventory inv1)
  = allowed_groups (discover (DO:=O2) hp hgp gp inventory inv2).
Proof. apply set_eq. intros h. by rewrite !elem_of_allowed_groups. Qed.

(** The assembled graph does not depend on the order in which the dicts are
    iterated. *)
Lemma assemble_order (O1 O2 : DictOrder) hp hgp gp inventory all_hosts inv :
  assemble (DO:=O1) hp hgp gp inventory all_hosts inv
  = assemble (DO:=O2) hp hgp gp inventory all_hosts inv.
Proof.
  apply Inventory_eq.
  - apply set_eq. intros x. rewrite !assemble_groups.
    by rewrite (allowed_groups_order O1 O2 _ _ _ _ inv inv).
  - apply set_eq. intros x. rewrite !assemble_hosts. simpl.
    by rewrite (allowed_groups_order O1 O2 _ _ _ _ inv inv),
               (allowed_hosts_order O1 O2 _ _ _ _ inv inv).
  - apply set_eq. intros x. rewrite !assemble_members. simpl.
    by rewrite (allowed_groups_order O1 O2 _ _ _ _ inv inv),
               (allowed_hosts_order O1 O2 _ _ _ _ inv inv).
  - apply set_eq. intros x. rewrite !assemble_child_groups. simpl.
    by rewrite (allowed_groups_order O1 O2 _ _ _ _ inv inv).
  - apply map_eq. intros [e k]. rewrite !assemble_variables. simpl.
    by rewrite (allowed_groups_order O1 O2 _ _ _ _ inv inv),
               (allowed_hosts_order O1 O2 _ _ _ _ inv inv).
  - by rewrite !assemble_reconciled.
Qed.

Lemma or_else_absorb {A : Type} (x y z : option A) :
  or_else x (or_else y (or_else x (or_else y z))) = or_else x (or_else y z).
Proof. by destruct x, y. Qed.

(** Assembling again on top of an assembled graph changes nothing. *)
Lemma assemble_again (O1 O2 : DictOrder) hp hgp gp inventory all_hosts inv :
  assemble (DO:=O2) hp hgp gp inventory all_hosts
    (assemble (DO:=O1) hp hgp gp inventory all_hosts inv)
  = assemble (DO:=O1) hp hgp gp inventory all_hosts inv.
Proof.
  set (g := assemble (DO:=O1) hp hgp gp inventory all_hosts inv).
  apply Inventory_eq.
  - apply set_eq. intros x. rewrite assemble_groups.
    rewrite (allowed_groups_order O2 O1 _ _ _ _ g inv).
    unfold g. rewrite assemble_groups. tauto.
  - apply set_eq. intros x. rewrite assemble_hosts. simpl.
    rewrite (allowed_groups_order O2 O1 _ _ _ _ g inv),
            (allowed_hosts_order O2 O1 _ _ _ _ g inv).
    unfold g. rewrite assemble_hosts. simpl. tauto.
  - apply set_eq. intros x. rewrite assemble_members. simpl.
    rewrite (allowed_groups_order O2 O1 _ _ _ _ g inv),
            (allowed_hosts_order O2 O1 _ _ _ _ g inv).
    unfold g. rewrite assemble_members. simpl. tauto.
  - apply set_eq. intros x. rewrite assemble_child_groups. simpl.
    rewrite (allowed_groups_order O2 O1 _ _ _ _ g inv).
    unfold g. rewrite assemble_child_groups. simpl. tauto.
  - apply map_eq. intros [e k]. rewrite assemble_variables. simpl.
    rewrite (allowed_groups_order O2 O1 _ _ _ _ g inv),
            (allowed_hosts_order O2 O1 _ _ _ _ g inv).
    unfold g. rewrite assemble_variables. simpl. apply or_else_absorb.
  - by rewrite !assemble_reconciled.
Qed.

(** C8. The build is deterministic and idempotent. Its result is a function
    of the document, the filters and the starting graph, whatever order the
    dicts are iterated in; and run a second time, on the graph the first run
    produced, it yields that same graph: groups, hosts, edges and variables
    are all unchanged. *)
Theorem build_graph_twice (O1 O2 : DictOrder) hp hgp gp inventory inv :
  build_graph (DO:=O2) hp hgp gp inventory inv
  = build_graph (DO:=O1) hp hgp gp inventory inv
  ∧ ∀ g, build_graph (DO:=O1) hp hgp gp inventory inv = Ok g →
         build_graph (DO:=O2) hp hgp gp inventory g = Ok g.
Proof.
  split.
  - destruct (meta_hostvars inventory) as [all_hosts|e] eqn:Hmeta.
    + rewrite !(build_graph_Ok _ _ _ _ all_hosts) by done.
      by rewrite (assemble_order O2 O1).
    + unfold build_graph. by rewrite Hmeta.
  - intros g (all_hosts & Hmeta & ->)%build_graph_inv.
    rewrite (build_graph_Ok _ _ _ _ all_hosts) by done.
    by rewrite assemble_again.
Qed.

End Determinism.

(** * A whole run *)

Section Run.
Context `{RT : Runtime} `{DO : DictOrder}.
Implicit Types (opts : Options) (ctl : Controller) (inv : Inventory).

(** [compile_filter] either succeeds or raises [re.error]. *)
Lemma compile_filter_cases filter :
  (∃ p, compile_filter filter = Ok p)
  ∨ (compile_filter filter = Raise ReError ∧ invalid_filter filter).
Proof.
  unfold compile_filter, invalid_filter.
  destruct filter as [[|a s]|]; [left; eauto| |left; eauto].
  destruct (re_compile (String a s)) eqn:Hc; [left; eauto|].
  right. split; [done|]. exists (String a s). done.
Qed.

Lemma compile_filter_invalid filter :
  invalid_filter filter → compile_filter filter = Raise ReError.
Proof.
  intros (s & -> & Hs & Hc). unfold compile_filter.
  destruct s; [done|]. by rewrite Hc.
Qed.

(** One bad filter is enough for lines 232-246 to raise. *)
Lemma compile_filters_invalid opts :
  invalid_filter (opt_hosts_filter opts)
  ∨ invalid_filter (opt_hostgroups_filter opts)
  ∨ invalid_filter (opt_groups_filter opts) →
  compile_filters opts = Raise ReError.
Proof.
  unfold compile_filters.
  intros [H|[H|H]]; apply compile_filter_invalid in H.
  - by rewrite H.
  - rewrite H.
    by destruct (compile_filter_cases (opt_hosts_filter opts))
      as [[p ->]|[-> _]].
  - rewrite H.
    destruct (compile_filter_cases (opt_hosts_filter opts))
      as [[p ->]|[-> _]]; [|done].
    by destruct (compile_filter_cases (opt_hostgroups_filter opts))
      as [[q ->]|[-> _]].
Qed.

(** The run up to the name lookup, lines 207-225. *)
Lemma parse_no_name opts ctl inv e :
  inventory_name_option (opt_inventory_name opts) = Raise e →
  parse opts ctl inv [] = ([], Raise e).
Proof. intros H. unfold parse, mbind, M_bind, lift. by rewrite H. Qed.

Lemma parse_no_answer opts ctl inv name :
  inventory_name_option (opt_inventory_name opts) = Ok name →
  (∀ j, inventories_endpoint ctl (request_handler_of opts)
          (name_request opts name) ≠ Body j) →
  parse opts ctl inv [] = ([name_request opts name], Raise AnsibleParserError).
Proof.
  intros Hn Hj. unfold parse, mbind, M_bind, lift, make_request.
  rewrite Hn. fold (name_request opts name).
  destruct (inventories_endpoint _ _ _) as [| |j] eqn:He; [done|done|].
  by destruct (Hj j).
Qed.

Lemma parse_no_id opts ctl inv name j e :
  inventory_name_option (opt_inventory_name opts) = Ok name →
  inventories_endpoint ctl (request_handler_of opts) (name_request opts name)
  = Body j →
  first_result_id j = Raise e →
  parse opts ctl inv [] = ([name_request opts name], Raise e).
Proof.
  intros Hn Hj Hid. unfold parse, mbind, M_bind, lift, make_request.
  rewrite Hn. fold (name_request opts name). by rewrite Hj, Hid.
Qed.

Lemma parse_no_filters opts ctl inv name j id e :
  inventory_name_option (opt_inventory_name opts) = Ok name →
  inventories_endpoint ctl (request_handler_of opts) (name_request opts name)
  = Body j →
  first_result_id j = Ok id →
  compile_filters opts = Raise e →
  parse opts ctl inv [] = ([name_request opts name], Raise e).
Proof.
  intros Hn Hj Hid Hf. unfold parse, mbind, M_bind, lift, make_request.
  rewrite Hn. fold (name_request opts name). by rewrite Hj, Hid, Hf.
Qed.

(** C7. When the name-resolution query answers with an empty [results]
    list, [results[0]] raises [IndexError], a [LookupError]; the run ends
    there, and the name-resolution request is the only one made: the script
    endpoint is never queried. *)
Theorem empty_results_is_lookup_error opts ctl inv name j :
  inventory_name_option (opt_inventory_name opts) = Ok name →
  inventories_endpoint ctl (request_handler_of opts) (name_request opts name)
  = Body j →
  getitem j "results" = Ok (JList []) →
  parse opts ctl inv [] = ([name_request opts name], Raise IndexError)
  ∧ is_LookupError IndexError = true.
Proof.
  intros Hn Hj Hr. split; [|done].
  apply (parse_no_id _ _ _ _ j); [done|done|].
  unfold first_result_id. by rewrite Hr.
Qed.

(** C4, amended. Whenever one of the configured filters does not compile,
    the run fails and no graph is returned; the failure comes before the
    script endpoint is queried but not before all network traffic, because
    the filters are compiled after the name lookup: the log holds at most the
    name-resolution request, and when that lookup yields an identifier the
    failure is [re.error] and the log holds exactly that request. *)
Theorem invalid_filter_fails opts ctl inv :
  invalid_filter (opt_hosts_filter opts)
  ∨ invalid_filter (opt_hostgroups_filter opts)
  ∨ invalid_filter (opt_groups_filter opts) →
  ∃ log e,
    parse opts ctl inv [] = (log, Raise e)
    ∧ (log = []
       ∨ ∃ name, inventory_name_option (opt_inventory_name opts) = Ok name
                 ∧ log = [name_request opts name])
    ∧ (∀ name j id,
         inventory_name_option (opt_inventory_name opts) = Ok name →
         inventories_endpoint ctl (request_handler_of opts)
           (name_request opts name) = Body j →
         first_result_id j = Ok id →
         e = ReError ∧ log = [name_request opts name]).
Proof.
  intros Hf%compile_filters_invalid.
  destruct (inventory_name_option (opt_inventory_name opts))
    as [name|e] eqn:Hn.
  - destruct (inventories_endpoint ctl (request_handler_of opts)
                (name_request opts name)) as [| |j] eqn:Hj.
    + exists [name_request opts name], AnsibleParserError. split.
      * apply parse_no_answer; [done|]. congruence.
      * split; [right; eauto|]. intros n j i [= <-]. congruence.
    + exists [name_request opts name], AnsibleParserError. split.
      * apply parse_no_answer; [done|]. congruence.
      * split; [right; eauto|]. intros n j i [= <-]. congruence.
    + destruct (first_result_id j) as [id|e] eqn:Hid.
      * exists [name_request opts name], ReError. split.
        -- by apply (parse_no_filters _ _ _ _ j id).
        -- split; [right; eauto|]. by intros n j' i [= <-].
      * exists [name_request opts name], e. split.
        -- by apply (parse_no_id _ _ _ _ j).
        -- split; [right; eauto|]. intros n j' i [= <-]. congruence.
  - exists [], e. split; [by apply parse_no_name|].
    split; [by left|]. congruence.
Qed.

(** [server_data] on a config document that is a dict. *)
Lemma server_data_dict config :
  license_info_is_dict config →
  server_data (JObj config) = Ok (controller_metadata config).
Proof.
  unfold license_info_is_dict, server_data, controller_metadata,
    license_type_of, field_or_unknown. simpl.
  destruct (assoc "license_info" config) as [[| | | | |li]|]; simpl; done.
Qed.

(** The run from the script request on, when everything before went well. *)
Lemma parse_success opts ctl inv name j id pats doc all_hosts :
  inventory_name_option (opt_inventory_name opts) = Ok name →
  inventories_endpoint ctl (request_handler_of opts) (name_request opts name)
  = Body j →
  first_result_id j = Ok id →
  compile_filters opts = Ok pats →
  script_endpoint ctl (request_handler_of opts) (script_request opts id)
  = Body doc →
  meta_hostvars doc = Ok all_hosts →
  parse opts ctl inv []
  = match fetch_metadata opts ctl (controller_host_of opts)
            (request_handler_of opts)
            (assemble pats.1.1 pats.1.2 pats.2 doc all_hosts inv)
            [name_request opts name; script_request opts id]
    with
    | (log, Ok g) => (log, Ok (reconcile_inventory g))
    | (log, Raise e) => (log, Raise e)
    end.
Proof.
  intros Hn Hj Hid Hf Hd Hm.
  unfold parse, mbind, M_bind, lift, make_request at 1 2.
  rewrite Hn. fold (name_request opts name). rewrite Hj, Hid, Hf.
  fold (script_request opts id). rewrite Hd.
  rewrite (build_graph_Ok _ _ _ _ all_hosts) by done.
  simpl. unfold mret, M_ret.
  by destruct (fetch_metadata _ _ _ _ _ _) as [log [g|e]].
Qed.

(** C9. On a run that gets as far as the metadata step: with metadata
    enabled and a config document that is a dict, the run ends well and the
    root group [all] carries the variable [controller_metadata], a dict of
    exactly the three keys [license_type], [version] and [ansible_version],
    each the server's value or "unknown" when absent, and no other variable
    differs from what the three loops set; with metadata disabled the config
    endpoint is not queried and the variables are those of the three loops,
    so that [controller_metadata] is never set by the run. *)
Theorem metadata_variable opts ctl inv name j id pats doc all_hosts :
  inventory_name_option (opt_inventory_name opts) = Ok name →
  inventories_endpoint ctl (request_handler_of opts) (name_request opts name)
  = Body j →
  first_result_id j = Ok id →
  compile_filters opts = Ok pats →
  script_endpoint ctl (request_handler_of opts) (script_request opts id)
  = Body doc →
  meta_hostvars doc = Ok all_hosts →
  let built := assemble pats.1.1 pats.1.2 pats.2 doc all_hosts inv in
  (opt_include_metadata opts = true →
   ∀ config,
     config_endpoint ctl (request_handler_of opts) (config_request opts)
     = Body (JObj config) →
     license_info_is_dict config →
     ∃ g, parse opts ctl inv []
          = ([name_request opts name; script_request opts id;
              config_request opts], Ok g)
          ∧ variables g !! ("all", "controller_metadata")
            = Some (controller_metadata config)
          ∧ ∀ e k, (e, k) ≠ ("all", "controller_metadata") →
                   variables g !! (e, k) = variables built !! (e, k))
  ∧ (opt_include_metadata opts = false →
     ∃ g, parse opts ctl inv []
          = ([name_request opts name; script_request opts id], Ok g)
          ∧ variables g = variables built).
Proof.
  intros Hn Hj Hid Hf Hd Hm built. split.
  - intros Hon config Hc Hli.
    rewrite (parse_success _ _ _ name j id pats doc all_hosts) by done.
    unfold fetch_metadata, mbind, M_bind, lift, make_request, mret, M_ret.
    rewrite Hon. fold (config_request opts). rewrite Hc.
    rewrite server_data_dict by done. simpl.
    eexists. split; [done|]. simpl. split.
    + apply lookup_insert_eq.
    + intros e k Hne. by apply lookup_insert_ne.
  - intros Hoff.
    rewrite (parse_success _ _ _ name j id pats doc all_hosts) by done.
    unfold fetch_metadata. rewrite Hoff. simpl. eauto.
Qed.

(** The edges the reconciliation adds: from the root group to the hosts
    that are members of nothing. *)
Lemma reconcile_members inv n h :
  (n, h) ∈ members (reconcile_inventory inv)
  ↔ (n, h) ∈ members inv
    ∨ (n = "all" ∧ h ∈ hosts inv ∧ ∀ m, (m, h) ∉ members inv).
Proof.
  unfold reconcile_inventory. simpl.
  rewrite elem_of_union, elem_of_map. split.
  - intros [?|(x & [= -> ->] & [Hx Hg]%elem_of_difference)]; [by left|].
    right. repeat split; [done|]. intros m Hm. apply Hg.
    apply elem_of_map. by exists (m, x).
  - intros [?|(-> & Hh & Hg)]; [by left|]. right. exists h.
    split; [done|]. apply elem_of_difference. split; [done|].
    intros ([m x] & Hx & Hm)%elem_of_map. simpl in Hx. subst x.
    by apply (Hg m).
Qed.

(** What a run that ends well returns: the graph of the three loops on the
    script endpoint's document, with the same groups, hosts and child edges,
    the root-group memberships of the reconciliation added, and the same
    variables, the metadata variable apart. *)
Lemma parse_returns_built opts ctl inv log g :
  parse opts ctl inv [] = (log, Ok g) →
  ∃ pats doc built,
    compile_filters opts = Ok pats
    ∧ build_graph pats.1.1 pats.1.2 pats.2 doc inv = Ok built
    ∧ groups g = groups built ∧ hosts g = hosts built
    ∧ child_groups g = child_groups built
    ∧ (∀ n h, (n, h) ∈ members g
              ↔ (n, h) ∈ members built
                ∨ (n = "all" ∧ h ∈ hosts built
                   ∧ ∀ m, (m, h) ∉ members built))
    ∧ reconciled g = true
    ∧ ∀ e k, (e, k) ≠ ("all", "controller_metadata") →
             variables g !! (e, k) = variables built !! (e, k).
Proof.
  unfold parse, mbind, M_bind, lift, make_request at 1 2.
  destruct (inventory_name_option _) as [name|]; [|done].
  destruct (inventories_endpoint _ _ _) as [| |j]; [done|done|].
  destruct (first_result_id j) as [id|]; [|done].
  destruct (compile_filters opts) as [pats|]; [|done].
  destruct (script_endpoint _ _ _) as [| |doc]; [done|done|].
  destruct (build_graph _ _ _ doc inv) as [built|] eqn:Hb; [|done].
  unfold fetch_metadata, mbind, M_bind, lift, make_request, mret, M_ret.
  destruct (opt_include_metadata opts).
  - destruct (config_endpoint _ _ _) as [| |config]; [done|done|].
    destruct (server_data config) as [data|]; [|done].
    intros [= _ <-]. exists pats, doc, built. simpl.
    split; [done|]. split; [done|]. do 3 (split; [done|]).
    split; [apply reconcile_members|]. split; [done|].
    intros e k Hne. by apply lookup_insert_ne.
  - intros [= _ <-]. exists pats, doc, built. simpl.
    split; [done|]. split; [done|]. do 3 (split; [done|]).
    split; [apply reconcile_members|]. done.
Qed.

End Run.

(** * Worked examples

    The runs below use [literal_runtime] and, unless said otherwise,
    [listing_order]. *)

(** The four example documents carry [_meta.hostvars]. *)
Lemma scenario_doc_hostvars : meta_hostvars scenario_doc = Ok scenario_hostvars.
Proof. vm_compute. reflexivity. Qed.

Lemma family_doc_hostvars : meta_hostvars family_doc = Ok scenario_hostvars.
Proof. vm_compute. reflexivity. Qed.

Lemma orphan_doc_hostvars : meta_hostvars orphan_doc = Ok ∅.
Proof. vm_compute. reflexivity. Qed.

Lemma two_groups_doc_hostvars : meta_hostvars two_groups_doc = Ok ∅.
Proof. vm_compute. reflexivity. Qed.

Lemma namesake_doc_hostvars :
  meta_hostvars namesake_doc = Ok (hostvars_of [("web", [("b", JNum 2)])]).
Proof. vm_compute. reflexivity. Qed.

(** The specification's scenarios: no filter, then [hosts_filter="h1"]. *)
Example scenario_no_filter :
  ∃ g, build_graph None None None scenario_doc empty_inventory = Ok g
       ∧ groups g = {["all"; "g1"]} ∧ hosts g = {["h1"; "h2"]}
       ∧ members g = {[("g1", "h1")]}
       ∧ variables g !! ("g1", "env") = Some (JStr "prod").
Proof.
  eexists. split; [vm_compute; reflexivity|].
  repeat split; vm_compute; reflexivity.
Qed.

Example scenario_hosts_filter :
  ∃ g, build_graph (Some "h1") None None scenario_doc empty_inventory = Ok g
       ∧ hosts g = {["h1"]}
       ∧ variables g !! ("g1", "env") = Some (JStr "prod").
Proof.
  eexists. split; [vm_compute; reflexivity|].
  repeat split; vm_compute; reflexivity.
Qed.

Example scenario_groups_filter :
  ∃ g, build_graph None None (Some "g1") family_doc empty_inventory = Ok g
       ∧ groups g = {["all"; "g1"; "g1a"]}
       ∧ child_groups g = {[("g1", "g1a")]}.
Proof.
  eexists. split; [vm_compute; reflexivity|].
  repeat split; vm_compute; reflexivity.
Qed.

(** ** The theorems at concrete inputs *)

Lemma host_present_iff_witness :
  meta_hostvars scenario_doc = Ok scenario_hostvars
  ∧ hosts empty_inventory = ∅
  ∧ ∃ g, build_graph (Some "h1") None None scenario_doc empty_inventory = Ok g
         ∧ ("h2" ∈ hosts g
            ↔ host_rule (Some "h1") "h2"
              ∧ listed_in_scanned_group None None scenario_doc "h2"
              ∧ (is_Some (scenario_hostvars !! "h2")
                 ∨ ∃ n c, scenario_doc !! n = Some c ∧ n ≠ "_meta"
                          ∧ n ≠ "all" ∧ group_rule None n
                          ∧ "h2" ∈ get_hosts c)).
Proof.
  split; [exact scenario_doc_hostvars|]. split; [reflexivity|].
  apply (host_present_iff (RT:=literal_runtime) (Some "h1") None None scenario_doc
           scenario_hostvars empty_inventory "h2").
  - vm_compute. reflexivity.
  - reflexivity.
Defined.

Lemma only_allowed_names_enter_witness :
  meta_hostvars family_doc = Ok scenario_hostvars
  ∧ ∃ g, build_graph None (Some "g1") (Some "g1") family_doc empty_inventory
         = Ok g
         ∧ let st := discover None (Some "g1") (Some "g1") family_doc
                       empty_inventory in
           (∀ h, h ∉ allowed_hosts st →
                 (h ∈ hosts g → h ∈ hosts empty_inventory)
                 ∧ ∀ n, (n, h) ∈ members g
                        → (n, h) ∈ members empty_inventory)
           ∧ (∀ n, n ∉ allowed_groups st →
                   (n ∈ groups g → n ∈ groups empty_inventory)
                   ∧ (∀ x, (n, x) ∈ members g
                           → (n, x) ∈ members empty_inventory)
                   ∧ (∀ x, (n, x) ∈ child_groups g
                           → (n, x) ∈ child_groups empty_inventory)
                   ∧ (∀ x, (x, n) ∈ child_groups g
                           → (x, n) ∈ child_groups empty_inventory))
           ∧ (∀ e k, e ∉ allowed_hosts st → e ∉ allowed_groups st →
                     variables g !! (e, k)
                     = variables empty_inventory !! (e, k)).
Proof.
  split; [exact family_doc_hostvars|].
  apply (only_allowed_names_enter (RT:=literal_runtime) None (Some "g1") (Some "g1") family_doc
           scenario_hostvars empty_inventory).
  vm_compute. reflexivity.
Defined.

Lemma group_vars_copied_iff_admitted_witness :
  meta_hostvars two_groups_doc = Ok ∅
  ∧ two_groups_doc !! "g2" = Some (group_entry [] [] [("env", JStr "prod")])
  ∧ ¬ group_rule (Some "g1") "g2"
  ∧ ∃ g, build_graph None None (Some "g1") two_groups_doc empty_inventory
         = Ok g
         ∧ ("g2" ∉ groups g)
         ∧ ∀ k, variables g !! ("g2", k) = None.
Proof.
  assert (two_groups_doc !! "g2"
          = Some (group_entry [] [] [("env", JStr "prod")])) as Hc
    by (vm_compute; reflexivity).
  assert (¬ group_rule (RT:=literal_runtime) (Some "g1") "g2") as Hr.
  { intros [?|[(p & Hp & Hs)|?]]; [discriminate| |discriminate].
    injection Hp as <-. discriminate. }
  split; [exact two_groups_doc_hostvars|]. split; [exact Hc|].
  split; [exact Hr|].
  destruct (group_vars_copied_iff_admitted (RT:=literal_runtime) None None
              (Some "g1") two_groups_doc ∅ empty_inventory "g2"
              (group_entry [] [] [("env", JStr "prod")])
              two_groups_doc_hostvars Hc)
    as (g & Hg & _ & _ & Hrej); [discriminate|].
  destruct (Hrej Hr) as (Hgr & _ & Hv).
  exists g. split; [exact Hg|]. split.
  - intros Hin. apply Hgr in Hin. by apply not_elem_of_empty in Hin.
  - intros k. rewrite (Hv (lookup_empty _) k). apply lookup_empty.
Defined.

Lemma invalid_filter_fails_witness :
  invalid_filter (opt_hosts_filter bad_filter_options)
  ∧ ∃ log e,
      parse bad_filter_options example_controller empty_inventory []
      = (log, Raise e)
      ∧ (log = []
         ∨ ∃ name,
             inventory_name_option (opt_inventory_name bad_filter_options)
             = Ok name
             ∧ log = [name_request bad_filter_options name])
      ∧ (∀ name j id,
           inventory_name_option (opt_inventory_name bad_filter_options)
           = Ok name →
           inventories_endpoint example_controller
             (request_handler_of bad_filter_options)
             (name_request bad_filter_options name) = Body j →
           first_result_id j = Ok id →
           e = ReError ∧ log = [name_request bad_filter_options name]).
Proof.
  assert (invalid_filter (opt_hosts_filter bad_filter_options)) as H.
  { exists "(". split; [reflexivity|]. split; [discriminate|reflexivity]. }
  split; [exact H|].
  apply (invalid_filter_fails (RT:=literal_runtime) bad_filter_options
           example_controller empty_inventory).
  left. exact H.
Defined.

Lemma group_vars_ignore_host_filters_witness :
  meta_hostvars family_doc = Ok scenario_hostvars
  ∧ ∃ g1 g2,
      build_graph None None (Some "g1") family_doc empty_inventory = Ok g1
      ∧ build_graph (Some "zzz") (Some "all") (Some "g1") family_doc
          empty_inventory = Ok g2
      ∧ (∀ k v,
           get_vars (group_entry ["h1"] ["g1a"; "x2"] [("env", JStr "prod")])
             !! k = Some v →
           variables g1 !! ("g1", k) = Some v
           ∧ variables g2 !! ("g1", k) = Some v)
      ∧ (scenario_hostvars !! "g1" = None →
         ∀ k, variables g1 !! ("g1", k) = variables g2 !! ("g1", k)).
Proof.
  split; [exact family_doc_hostvars|].
  apply (group_vars_ignore_host_filters (RT:=literal_runtime) None None (Some "zzz") (Some "all")
           (Some "g1") family_doc scenario_hostvars empty_inventory "g1"
           (group_entry ["h1"] ["g1a"; "x2"] [("env", JStr "prod")])).
  - vm_compute. reflexivity.
  - vm_compute. reflexivity.
  - discriminate.
  - right. left. exists "g1". split; reflexivity.
Defined.

Lemma group_registered_iff_witness :
  is_Some (family_doc !! "x2")
  ∧ let st := discover None None (Some "g1") family_doc empty_inventory in
    ("x2" ∈ allowed_groups st ↔ "x2" ≠ "_meta" ∧ group_rule (Some "g1") "x2")
    ∧ ("x2" ∈ groups (discovered st)
       ↔ "x2" ∈ groups empty_inventory
         ∨ ("x2" ≠ "_meta" ∧ group_rule (Some "g1") "x2"))
    ∧ ("_meta" ∉ allowed_groups st)
    ∧ ("_meta" ∈ groups (discovered st) → "_meta" ∈ groups empty_inventory)
    ∧ (∀ g, build_graph None None (Some "g1") family_doc empty_inventory
            = Ok g → groups g = groups (discovered st)).
Proof.
  assert (is_Some (family_doc !! "x2")) as H.
  { eexists. vm_compute. reflexivity. }
  split; [exact H|].
  apply (group_registered_iff (RT:=literal_runtime) None None (Some "g1") family_doc
           empty_inventory "x2" H).
Defined.

Lemma empty_results_is_lookup_error_witness :
  parse example_options empty_results_controller empty_inventory []
  = ([name_request example_options "prod inv"], Raise IndexError)
  ∧ is_LookupError IndexError = true.
Proof.
  apply (empty_results_is_lookup_error (RT:=literal_runtime) example_options
           empty_results_controller empty_inventory "prod inv"
           (JObj [("results", JList [])])); reflexivity.
Defined.

Lemma build_graph_twice_witness :
  let g := assemble (DO:=listing_order) (Some "h1") None (Some "g1")
             family_doc scenario_hostvars empty_inventory in
  build_graph (DO:=listing_order) (Some "h1") None (Some "g1") family_doc
    empty_inventory = Ok g
  ∧ build_graph (DO:=reverse_order) (Some "h1") None (Some "g1") family_doc
      empty_inventory = Ok g
  ∧ build_graph (DO:=reverse_order) (Some "h1") None (Some "g1") family_doc g
    = Ok g.
Proof.
  intros g.
  assert (build_graph (DO:=listing_order) (Some "h1") None (Some "g1")
            family_doc empty_inventory = Ok g) as Hg
    by (vm_compute; reflexivity).
  destruct (build_graph_twice (RT:=literal_runtime) listing_order
              reverse_order (Some "h1") None (Some "g1") family_doc
              empty_inventory) as [Hsame Hagain].
  split; [exact Hg|]. split.
  - rewrite Hsame. exact Hg.
  - apply Hagain. exact Hg.
Defined.

Lemma metadata_variable_witness :
  ∃ g, parse example_options example_controller empty_inventory []
       = ([name_request example_options "prod inv";
           script_request example_options (JNum 7);
           config_request example_options], Ok g)
       ∧ variables g !! ("all", "controller_metadata")
         = Some (JObj [("license_type", JStr "enterprise");
                       ("version", JStr "4.2.0");
                       ("ansible_version", JStr "unknown")]).
Proof.
  pose proof (metadata_variable (RT:=literal_runtime) example_options
                example_controller empty_inventory "prod inv"
                (JObj [("count", JNum 1);
                       ("results", JList [JObj [("id", JNum 7)]])])
                (JNum 7) (None, None, None) scenario_doc scenario_hostvars
                eq_refl eq_refl eq_refl eq_refl eq_refl scenario_doc_hostvars)
    as [Hon _].
  destruct (Hon eq_refl example_config eq_refl I) as (g & Hg & Hv & _).
  exists g. split; [exact Hg|exact Hv].
Defined.

Lemma root_hosts_need_scanned_group_witness :
  let st := discover None (Some "g1") None scenario_doc empty_inventory in
  (is_Some (scenario_doc !! "all") → "all" ∈ allowed_groups st)
  ∧ ("h2" ∉ allowed_hosts st)
  ∧ ∃ g, build_graph None (Some "g1") None scenario_doc empty_inventory = Ok g
         ∧ ("h2" ∈ hosts g → "h2" ∈ hosts empty_inventory)
         ∧ (∀ n, (n, "h2") ∈ members g → (n, "h2") ∈ members empty_inventory).
Proof.
  apply (root_hosts_need_scanned_group (RT:=literal_runtime) None (Some "g1")
           None scenario_doc scenario_hostvars empty_inventory "g1" "h2").
  - vm_compute. reflexivity.
  - reflexivity.
  - reflexivity.
  - intros n c Hc Hall Hmeta _ _.
    assert (n = "g1") as ->.
    { apply elem_of_dom_2 in Hc. revert Hc.
      replace (dom scenario_doc) with ({["all"; "g1"; "_meta"]} : gset string)
        by (vm_compute; reflexivity).
      rewrite !elem_of_union, !elem_of_singleton. tauto. }
    assert (c = group_entry ["h1"] [] [("env", JStr "prod")]) as ->.
    { assert (scenario_doc !! "g1"
              = Some (group_entry ["h1"] [] [("env", JStr "prod")])) as H
        by (vm_compute; reflexivity).
      congruence. }
    unfold get_hosts, group_entry. simpl. intros Hin.
    apply list_elem_of_singleton in Hin. discriminate.
Defined.

(** ** Where the specification's wording and the code part *)

(** C1 as stated fails. In [orphan_doc] the host [h9] is listed under the
    admitted group [g1] and is missing from [_meta.hostvars]; with no filter
    set the third loop still calls [add_host("h9", "g1")], so [h9] is a host
    of the graph, and a member of [g1], although the specification's presence
    rule excludes it. *)
Lemma host_outside_hostvars_present :
  ¬ (∀ g h,
       build_graph None None None orphan_doc empty_inventory = Ok g →
       (h ∈ hosts g ↔ presence_rule None None None orphan_doc ∅ h)).
Proof.
  intros H.
  pose proof (build_graph_Ok (RT:=literal_runtime) None None None orphan_doc
                ∅ empty_inventory orphan_doc_hostvars) as Hb.
  specialize (H _ "h9" Hb). destruct H as [H _].
  destruct H as [[x Hx] _]; [vm_compute; reflexivity|].
  by rewrite lookup_empty in Hx.
Qed.

(** C3 as stated fails. With [groups_filter="g1"] the key [g2] of
    [two_groups_doc] is not [_meta] and has [vars] [{"env": "prod"}], yet
    the third loop skips it ([g2] is not in [allowed_groups]) and nothing is
    recorded under [("g2", "env")]. *)
Lemma rejected_group_vars_not_copied :
  ¬ (∀ g n c k v,
       build_graph None None (Some "g1") two_groups_doc empty_inventory
       = Ok g →
       two_groups_doc !! n = Some c → n ≠ "_meta" →
       get_vars c !! k = Some v →
       variables g !! (n, k) = Some v).
Proof.
  intros H.
  pose proof (build_graph_Ok (RT:=literal_runtime) None None (Some "g1")
                two_groups_doc ∅ empty_inventory two_groups_doc_hostvars)
    as Hb.
  assert (two_groups_doc !! "g2"
          = Some (group_entry [] [] [("env", JStr "prod")])) as Hc
    by (vm_compute; reflexivity).
  assert (get_vars (group_entry [] [] [("env", JStr "prod")]) !! "env"
          = Some (JStr "prod")) as Hk by (vm_compute; reflexivity).
  assert ("g2" ≠ "_meta") as Hm by discriminate.
  pose proof (H _ _ _ _ _ Hb Hc Hm Hk) as Hv.
  vm_compute in Hv. discriminate.
Qed.

(** C4 as stated fails. With the hosts filter ["("] and a server that
    answers the name lookup, the run does fail, but only after the
    name-resolution request has been sent: the log is not empty. *)
Lemma filters_compiled_after_name_lookup :
  ¬ (invalid_filter (opt_hosts_filter bad_filter_options) →
     ∃ e, parse bad_filter_options example_controller empty_inventory []
          = ([], Raise e)).
Proof.
  intros H. destruct H as [e He].
  - exists "(". split; [reflexivity|]. split; [discriminate|reflexivity].
  - vm_compute in He. discriminate.
Qed.

(** C5 as stated fails. In [namesake_doc] a host and a group are both called
    [web]. Without a hosts filter the second loop records the host's variable
    [b] under the name [web]; with [hosts_filter="zzz"] the host is filtered
    out and the name [web], an admitted group in both runs, has no variable
    [b]. *)
Lemma namesake_host_changes_group_vars :
  ¬ (∀ g1 g2 k,
       build_graph None None None namesake_doc empty_inventory = Ok g1 →
       build_graph (Some "zzz") None None namesake_doc empty_inventory
       = Ok g2 →
       "web" ∈ allowed_groups
                 (discover None None None namesake_doc empty_inventory) →
       variables g1 !! ("web", k) = variables g2 !! ("web", k)).
Proof.
  intros H.
  pose proof (build_graph_Ok (RT:=literal_runtime) None None None
                namesake_doc _ empty_inventory namesake_doc_hostvars) as H1.
  pose proof (build_graph_Ok (RT:=literal_runtime) (Some "zzz") None None
                namesake_doc _ empty_inventory namesake_doc_hostvars) as H2.
  assert ("web" ∈ allowed_groups
                    (discover (RT:=literal_runtime) None None None
                       namesake_doc empty_inventory)) as Hweb
    by (vm_compute; reflexivity).
  pose proof (H _ _ "b" H1 H2 Hweb) as Hv.
  vm_compute in Hv. discriminate.
Qed.

(** * Paths, names and URLs *)

Lemma ends_with_nil suffix :
  ends_with suffix "" = String.eqb "" suffix.
Proof. simpl. apply orb_false_r. Qed.

Lemma ends_with_cons suffix a s :
  ends_with suffix (String a s)
  = String.eqb (String a s) suffix || ends_with suffix s.
Proof. reflexivity. Qed.

Lemma ends_with_spec suffix s :
  ends_with suffix s = true ↔ ∃ pre, s = pre +:+ suffix.
Proof.
  induction s as [|a s IH].
  - rewrite ends_with_nil, String.eqb_eq. split.
    + intros <-. by exists "".
    + intros [[|b pre] Hp]; simpl in Hp; [done|discriminate].
  - rewrite ends_with_cons, orb_true_iff, String.eqb_eq, IH. split.
    + intros [<-|[pre ->]]; [by exists ""|]. by exists (String a pre).
    + intros [[|b pre] Hp]; simpl in Hp; [by left|].
      injection Hp as -> ->. right. by exists pre.
Qed.

Lemma append_assoc (a b c : string) : a +:+ (b +:+ c) = (a +:+ b) +:+ c.
Proof.
  induction a as [|x a IH]; [reflexivity|].
  change (String x (a +:+ (b +:+ c)) = String x ((a +:+ b) +:+ c)).
  by rewrite IH.
Qed.

Lemma ends_with_app a b s :
  ends_with (a +:+ b) s = true → ends_with b s = true.
Proof.
  rewrite !ends_with_spec. intros [pre ->]. exists (pre +:+ a).
  apply append_assoc.
Qed.

Lemma chars_app a b : chars (a +:+ b) = (chars a ++ chars b)%list.
Proof. induction a as [|c a IH]; simpl; [done|]. by rewrite IH. Qed.

Lemma chars_inj a b : chars a = chars b → a = b.
Proof.
  revert b. induction a as [|c a IH]; intros [|d b]; simpl; try done.
  intros [= -> H]. by rewrite (IH b H).
Qed.

(** [replace] rewrites the needle wherever it stands and keeps every other
    character in place. *)
Lemma chars_replace c by_ s :
  chars (replace c by_ s)
  = chars s ≫= (λ a, if bool_decide (a = c) then chars by_ else [a]).
Proof.
  induction s as [|a s IH]; simpl; [done|].
  case_bool_decide; simpl; [rewrite chars_app|]; by rewrite IH.
Qed.

Lemma replace_absent c by_ s : c ∉ chars s → replace c by_ s = s.
Proof.
  induction s as [|a s IH]; simpl; [done|].
  intros Hn. rewrite not_elem_of_cons in Hn. destruct Hn as [Hne Hn].
  rewrite bool_decide_eq_false_2 by congruence. by rewrite IH.
Qed.

Lemma replace_no_needle c by_ s : c ∉ chars by_ → c ∉ chars (replace c by_ s).
Proof.
  intros Hby. rewrite chars_replace.
  intros (a & Hin & _)%list_elem_of_bind.
  case_bool_decide; [done|].
  apply list_elem_of_singleton in Hin. congruence.
Qed.

(** X1. [verify_file] accepts exactly two kinds of path: anything ending in
    [@controllerx_inventory], whatever the inherited check says about it, and
    what the inherited check accepts when it ends in [controllerx] or
    [controllerx_inventory] followed by [.yml] or [.yaml]. *)
Theorem verify_file_accepts super_verify_file self path :
  (verify_file super_verify_file self path).2 = true
  ↔ (∃ pre, path = pre +:+ "@controllerx_inventory")
    ∨ (super_verify_file path = true
       ∧ ∃ pre stem ext,
           stem ∈ ["controllerx_inventory"; "controllerx"]
           ∧ ext ∈ [".yml"; ".yaml"]
           ∧ path = pre +:+ stem +:+ ext).
Proof.
  unfold verify_file.
  destruct (ends_with "@controllerx_inventory" path) eqn:Henv; simpl.
  - apply ends_with_spec in Henv. tauto.
  - assert (¬ ∃ pre, path = pre +:+ "@controllerx_inventory") as Hno.
    { rewrite <- ends_with_spec. congruence. }
    destruct (super_verify_file path); simpl; [|naive_solver].
    unfold ends_with_any. simpl. rewrite orb_false_r, !orb_true_iff,
      !ends_with_spec. split.
    + intros [[pre ->]|[[pre ->]|[[pre ->]|[pre ->]]]]; right;
        (split; [done|]).
      * exists pre, "controllerx_inventory", ".yml". set_solver.
      * exists pre, "controllerx_inventory", ".yaml". set_solver.
      * exists pre, "controllerx", ".yml". set_solver.
      * exists pre, "controllerx", ".yaml". set_solver.
    + intros [?|[_ (pre & stem & ext & Hs & He & ->)]]; [done|].
      rewrite !elem_of_cons, !elem_of_nil in Hs, He.
      destruct Hs as [->|[->|[]]], He as [->|[->|[]]]; eauto 6.
Qed.

Lemma verify_files_snoc super_verify_file paths path self :
  verify_files super_verify_file (paths ++ [path]) self
  = (verify_file super_verify_file
       (verify_files super_verify_file paths self) path).1.
Proof. unfold verify_files. by rewrite foldl_app. Qed.

(** X2. The plugin object never forgets an environment pseudo-path: after
    any sequence of [verify_file] calls the flag [no_config_file_supplied] is
    set exactly when it was set before or one of the paths ended in
    [@controllerx_inventory]; no call clears it. From then on line 194 never
    reads a configuration file, whatever path [parse] is given. *)
Theorem env_path_is_remembered super_verify_file paths self :
  no_config_file_supplied (verify_files super_verify_file paths self)
  = no_config_file_supplied self
    || existsb (ends_with "@controllerx_inventory") paths
  ∧ (existsb (ends_with "@controllerx_inventory") paths = true →
     ∀ isfile path,
       reads_config_file (verify_files super_verify_file paths self)
         isfile path = false).
Proof.
  assert (no_config_file_supplied (verify_files super_verify_file paths self)
          = no_config_file_supplied self
            || existsb (ends_with "@controllerx_inventory") paths) as Hflag.
  { induction paths as [|p paths IH] using rev_ind.
    - simpl. by rewrite orb_false_r.
    - rewrite verify_files_snoc, existsb_app. simpl. unfold verify_file.
      destruct (ends_with "@controllerx_inventory" p) eqn:Hp; simpl.
      + by rewrite !orb_true_r.
      + rewrite !orb_false_r.
        by destruct (super_verify_file p). }
  split; [done|]. intros Hex isfile path. unfold reads_config_file.
  by rewrite Hflag, Hex, orb_true_r.
Qed.

(** X3. [s.replace(c, by)] with a replacement that does not contain the
    needle leaves no needle behind, and changes nothing exactly when there
    was none. Both uses in [parse] are of this kind: spaces become [%20] in
    the inventory name, slashes vanish from the identifier. *)
Theorem replace_removes_needle c by_ s :
  c ∉ chars by_ →
  (c ∉ chars (replace c by_ s))
  ∧ (replace c by_ s = s ↔ c ∉ chars s).
Proof.
  intros Hby. split; [by apply replace_no_needle|]. split.
  - intros Heq Hin. apply (replace_no_needle c by_ s Hby). by rewrite Heq.
  - apply replace_absent.
Qed.

(** X4. The base URL always carries a scheme: a host that starts with
    [http://] or [https://] is used as it is, any other gets [https://] in
    front, and the result passes the scheme test, so that normalising twice
    changes nothing. *)
Theorem controller_host_has_scheme opts :
  has_scheme (controller_host_of opts) = true
  ∧ (has_scheme (opt_host opts) = true →
     controller_host_of opts = opt_host opts)
  ∧ (has_scheme (opt_host opts) = false →
     controller_host_of opts = "https://" +:+ opt_host opts)
  ∧ (∀ opts', opt_host opts' = controller_host_of opts →
              controller_host_of opts' = controller_host_of opts).
Proof.
  assert (has_scheme (controller_host_of opts) = true) as H.
  { unfold controller_host_of.
    destruct (has_scheme (opt_host opts)) eqn:Hs; [done|].
    unfold has_scheme. simpl. by destruct (opt_host opts). }
  split; [done|]. unfold controller_host_of at 1 2. repeat split.
  - by intros ->.
  - by intros ->.
  - intros opts' Ho. unfold controller_host_of at 1. by rewrite Ho, H.
Qed.

(** * Failures of a run, stage by stage *)

Section Stages.
Context `{RT : Runtime} `{DO : DictOrder}.
Implicit Types (opts : Options) (ctl : Controller) (inv : Inventory).

Lemma getitem_Ok j k v :
  getitem j k = Ok v ↔ ∃ o, j = JObj o ∧ assoc k o = Some v.
Proof.
  unfold getitem. destruct j as [| | | | |o]; try (split; [done|]; by intros (? & ? & _)).
  destruct (assoc k o) as [w|] eqn:Ha; split.
  - intros [= ->]. eauto.
  - intros (o' & [= <-] & Ho). congruence.
  - done.
  - intros (o' & [= <-] & Ho). congruence.
Qed.


(** The metadata step, outcome by outcome. *)
Lemma fetch_metadata_cases opts ctl inv log :
  fetch_metadata opts ctl (controller_host_of opts) (request_handler_of opts)
    inv log
  = if opt_include_metadata opts then
      ((log ++ [config_request opts])%list,
       match config_endpoint ctl (request_handler_of opts)
               (config_request opts) with
       | Body config =>
           match server_data config with
           | Ok data =>
               Ok (set_variable "all" "controller_metadata" data inv)
           | Raise e => Raise e
           end
       | _ => Raise AnsibleParserError
       end)
    else (log, Ok inv).
Proof.
  unfold fetch_metadata, mbind, M_bind, lift, make_request, mret, M_ret.
  fold (config_request opts).
  destruct (opt_include_metadata opts); [|done].
  destruct (config_endpoint _ _ _) as [| |config]; [done|done|].
  by destruct (server_data config).
Qed.

(** The whole run, outcome by outcome. *)
Lemma parse_cases opts ctl inv :
  parse opts ctl inv []
  = match inventory_name_option (opt_inventory_name opts) with
    | Raise e => ([], Raise e)
    | Ok name =>
        match inventories_endpoint ctl (request_handler_of opts)
                (name_request opts name) with
        | Body j =>
            match first_result_id j with
            | Raise e => ([name_request opts name], Raise e)
            | Ok id =>
                match compile_filters opts with
                | Raise e => ([name_request opts name], Raise e)
                | Ok pats =>
                    match script_endpoint ctl (request_handler_of opts)
                            (script_request opts id) with
                    | Body doc =>
                        match build_graph pats.1.1 pats.1.2 pats.2 doc inv
                        with
                        | Raise e =>
                            ([name_request opts name;
                              script_request opts id], Raise e)
                        | Ok built =>
                            match fetch_metadata opts ctl
                                    (controller_host_of opts)
                                    (request_handler_of opts) built
                                    [name_request opts name;
                                     script_request opts id]
                            with
                            | (log, Ok g) => (log, Ok (reconcile_inventory g))
                            | (log, Raise e) => (log, Raise e)
                            end
                        end
                    | _ => ([name_request opts name; script_request opts id],
                            Raise AnsibleParserError)
                    end
                end
            end
        | _ => ([name_request opts name], Raise AnsibleParserError)
        end
    end.
Proof.
  unfold parse, mbind, M_bind, lift, make_request at 1 2.
  destruct (inventory_name_option _) as [name|]; [|done].
  fold (name_request opts name).
  destruct (inventories_endpoint _ _ _) as [| |j]; [done|done|].
  destruct (first_result_id j) as [id|]; [|done].
  destruct (compile_filters opts) as [pats|]; [|done].
  fold (script_request opts id).
  destruct (script_endpoint _ _ _) as [| |doc]; [done|done|].
  destruct (build_graph _ _ _ doc inv) as [built|]; [|done].
  simpl. unfold mret, M_ret.
  by destruct (fetch_metadata _ _ _ _ _ _) as [log [g|e]].
Qed.

Lemma inventory_name_option_Raise v e :
  inventory_name_option v = Raise e → e = AnsibleOptionsError.
Proof.
  unfold inventory_name_option.
  destruct v; try done; destruct (ensure_type_str _); try done;
    by intros [= <-].
Qed.

(** X5. Line 225 yields an identifier exactly when the answer is a dict
    whose [results] is a non-empty list with a dict in front that has an
    [id]; the later results are never looked at. *)
Theorem first_result_id_Ok_iff j id :
  first_result_id j = Ok id
  ↔ ∃ o first rest,
      j = JObj o
      ∧ assoc "results" o = Some (JList (JObj first :: rest))
      ∧ assoc "id" first = Some id.
Proof.
  unfold first_result_id. split.
  - destruct (getitem j "results") as [rs|] eqn:H1; [|done].
    apply getitem_Ok in H1 as (o & -> & Hrs).
    destruct (getitem0 rs) as [x|] eqn:H2; [|done].
    intros (first & -> & Hid)%getitem_Ok.
    destruct rs as [| | |[|??]|[|y rest]|?]; try done.
    simpl in H2. injection H2 as ->. by exists o, first, rest.
  - intros (o & first & rest & -> & Hrs & Hid). simpl.
    rewrite Hrs. simpl. by rewrite Hid.
Qed.

(** X6. An unset filter and an empty one both compile to no pattern, and
    nothing else does; a pattern comes out exactly when the option is a
    non-empty string that [re.compile] accepts. *)
Theorem compile_filter_Ok_iff filter :
  (compile_filter filter = Ok None ↔ filter = None ∨ filter = Some "")
  ∧ ∀ p, compile_filter filter = Ok (Some p)
         ↔ ∃ s, filter = Some s ∧ s ≠ "" ∧ re_compile s = Some p.
Proof.
  unfold compile_filter. destruct filter as [[|a s]|]; split.
  - split; [auto|done].
  - intros p. split; [done|]. by intros (s & [= <-] & ? & _).
  - destruct (re_compile (String a s)); split; try done;
      intros [?|?]; done.
  - intros p. destruct (re_compile (String a s)) as [q|] eqn:Hc; split.
    + intros [= ->]. exists (String a s). done.
    + intros (s' & [= <-] & _ & Hq). congruence.
    + done.
    + intros (s' & [= <-] & _ & Hq). congruence.
  - split; [auto|done].
  - intros p. split; [done|]. by intros (s & ? & _).
Qed.

(** X7. A string [inventory_name] is used as it is and never raises. Any
    other value goes through [ensure_type], and exactly when that conversion
    fails line 215 raises [AnsibleOptionsError], the only exception of lines
    207-218. This comes before the first request: the run then ends with
    nothing in the log. *)
Theorem inventory_name_error_iff opts ctl inv :
  (inventory_name_option (opt_inventory_name opts)
   = Raise AnsibleOptionsError
   ↔ (∀ s, opt_inventory_name opts ≠ JStr s)
     ∧ ensure_type_str (opt_inventory_name opts) = None)
  ∧ (∀ e, inventory_name_option (opt_inventory_name opts) = Raise e →
          e = AnsibleOptionsError
          ∧ parse opts ctl inv [] = ([], Raise AnsibleOptionsError))
  ∧ (∀ s, opt_inventory_name opts = JStr s →
          inventory_name_option (opt_inventory_name opts) = Ok s).
Proof.
  split; [|split].
  - unfold inventory_name_option.
    destruct (opt_inventory_name opts) as [| | |s| |] eqn:Hv;
      try (destruct (ensure_type_str _) eqn:He; split;
           [done|by intros [_ ?]|done|by intros _]).
    split; [done|]. intros [Hs _]. by destruct (Hs s).
  - intros e He. apply inventory_name_option_Raise in He as Heq. subst e.
    split; [done|]. by apply parse_no_name.
  - intros s ->. reflexivity.
Qed.

(** X8. A run that ends well has made the name-resolution request, then the
    script request for the identifier of the first result, then the config
    request when metadata is enabled, and no other: two requests, or three. *)
Theorem successful_run_requests opts ctl inv log g :
  parse opts ctl inv [] = (log, Ok g) →
  ∃ name j id,
    inventory_name_option (opt_inventory_name opts) = Ok name
    ∧ inventories_endpoint ctl (request_handler_of opts)
        (name_request opts name) = Body j
    ∧ first_result_id j = Ok id
    ∧ log = name_request opts name :: script_request opts id
            :: (if opt_include_metadata opts then [config_request opts]
                else []).
Proof.
  rewrite parse_cases.
  destruct (inventory_name_option _) as [name|]; [|done].
  destruct (inventories_endpoint _ _ _) as [| |j] eqn:Hj; [done|done|].
  destruct (first_result_id j) as [id|] eqn:Hid; [|done].
  destruct (compile_filters opts) as [pats|]; [|done].
  destruct (script_endpoint _ _ _) as [| |doc]; [done|done|].
  destruct (build_graph _ _ _ doc inv) as [built|]; [|done].
  rewrite fetch_metadata_cases.
  destruct (opt_include_metadata opts).
  - destruct (config_endpoint _ _ _) as [| |config]; [done|done|].
    destruct (server_data config); [|done].
    intros [= <- _]. by exists name, j, id.
  - intros [= <- _]. by exists name, j, id.
Qed.


(** X12. The metadata dict is built exactly when the config document is a
    dict whose [license_info] is absent or a dict itself, and it is then the
    three-key dict with "unknown" filled in; [version] and [ansible_version]
    of any type are taken as they are. *)
Theorem server_data_Ok_iff j data :
  server_data j = Ok data
  ↔ ∃ config, j = JObj config ∧ license_info_is_dict config
              ∧ data = controller_metadata config.
Proof.
  split.
  - unfold server_data, dict_get. destruct j as [| | | | |o]; try done.
    intros Hs. exists o. split; [done|].
    unfold license_info_is_dict, controller_metadata, license_type_of,
      field_or_unknown.
    destruct (assoc "license_info" o) as [[| | | | |li]|]; simpl in *;
      try done; by injection Hs as <-.
  - intros (config & -> & Hli & ->). by apply server_data_dict.
Qed.


End Stages.

(** * More on the built graph *)

Section Built.
Context `{RT : Runtime} `{DO : DictOrder}.
Implicit Types (hp hgp gp : option Pattern) (inventory : gmap string Content)
  (all_hosts : gmap string (gmap string json)) (inv : Inventory).

(** With no pattern every rule holds. *)
Lemma group_rule_None g : group_rule None g.
Proof. by left. Qed.

Lemma allowed_hosts_subseteq hp hgp gp inventory inv :
  allowed_hosts (discover hp hgp gp inventory inv)
  ⊆ allowed_hosts (discover None None None inventory inv).
Proof.
  intros h. rewrite !elem_of_allowed_hosts.
  intros (n & c & Hc & Ha & _ & Hh & _). exists n, c.
  repeat split; try done.
  apply admits_group_rule in Ha as [??]. apply admits_group_rule.
  split; [done|by left].
Qed.

Lemma allowed_groups_subseteq hp hgp gp inventory inv :
  allowed_groups (discover hp hgp gp inventory inv)
  ⊆ allowed_groups (discover None None None inventory inv).
Proof.
  intros n. rewrite !allowed_groups_rule. intros (? & ? & _).
  repeat split; try done. by left.
Qed.

(** X13. The second loop copies the variables of an allowed host verbatim:
    every entry of its [hostvars] dict is a variable under the host's name
    with the same value. The one exception is a host that bears the name of
    an admitted group whose own [vars] define the same variable: the third
    loop writes after the second, and the group's value stays. *)
Theorem host_vars_copied hp hgp gp inventory all_hosts inv h hv k v :
  meta_hostvars inventory = Ok all_hosts →
  host_rule hp h → listed_in_scanned_group hgp gp inventory h →
  all_hosts !! h = Some hv → hv !! k = Some v →
  ∃ g, build_graph hp hgp gp inventory inv = Ok g
       ∧ h ∈ hosts g
       ∧ ((∀ c, inventory !! h = Some c → h ≠ "_meta" → group_rule gp h →
                get_vars c !! k = None) →
          variables g !! (h, k) = Some v)
       ∧ (∀ c w, inventory !! h = Some c → h ≠ "_meta" → group_rule gp h →
                 get_vars c !! k = Some w →
                 variables g !! (h, k) = Some w).
Proof.
  intros Hmeta Hr Hl Hh Hk. eexists. split; [by apply build_graph_Ok|].
  assert (h ∈ allowed_hosts (discover hp hgp gp inventory inv)) as Ha
    by (by apply allowed_hosts_rule).
  split; [|split].
  - apply assemble_hosts. right. left. eauto.
  - intros Hnone. rewrite assemble_variables. simpl.
    unfold group_var, host_var. rewrite (decide_True _ _ Ha), Hh, Hk.
    destruct (decide _) as [Hg|]; [|done].
    apply allowed_groups_rule in Hg as ([c Hc] & ? & ?).
    by rewrite Hc, (Hnone c).
  - intros c w Hc Hm Hg Hw. rewrite assemble_variables. simpl.
    by rewrite (group_var_Some _ _ _ _ _ _ c), Hw.
Qed.

(** X14. The build never makes the root group the source of an edge: no
    host is attached to [all], no child group either, and nothing to [_meta];
    an edge out of one of them in the built graph was there before the
    build. *)
Theorem root_group_gets_no_edges hp hgp gp inventory all_hosts inv :
  meta_hostvars inventory = Ok all_hosts →
  ∃ g, build_graph hp hgp gp inventory inv = Ok g
       ∧ ∀ n x, n = "all" ∨ n = "_meta" →
                ((n, x) ∈ members g → (n, x) ∈ members inv)
                ∧ ((n, x) ∈ child_groups g → (n, x) ∈ child_groups inv).
Proof.
  intros Hmeta. eexists. split; [by apply build_graph_Ok|].
  intros n x Hn. split.
  - rewrite assemble_members. simpl.
    intros [?|(c & _ & (_ & ? & ?) & _)]; [done|]. by destruct Hn.
  - rewrite assemble_child_groups. simpl.
    intros [?|(c & _ & (_ & ? & ?) & _)]; [done|]. by destruct Hn.
Qed.

(** X15. The groups and the child edges of the built graph depend on the
    groups filter alone: two builds that differ in the hosts filter and the
    hostgroups filter only have the same groups and the same child edges. *)
Theorem groups_ignore_host_filters
    hp1 hgp1 hp2 hgp2 gp inventory all_hosts inv :
  meta_hostvars inventory = Ok all_hosts →
  ∃ g1 g2,
    build_graph hp1 hgp1 gp inventory inv = Ok g1
    ∧ build_graph hp2 hgp2 gp inventory inv = Ok g2
    ∧ groups g1 = groups g2 ∧ child_groups g1 = child_groups g2.
Proof.
  intros Hmeta. do 2 eexists.
  split; [by apply build_graph_Ok|]. split; [by apply build_graph_Ok|].
  split; apply set_eq; intros x.
  - rewrite !assemble_groups.
    by rewrite (allowed_groups_filters hp1 hgp1 hp2 hgp2 gp inventory inv inv).
  - rewrite !assemble_child_groups. simpl.
    by rewrite (allowed_groups_filters hp1 hgp1 hp2 hgp2 gp inventory inv inv).
Qed.

(** X16. The build only adds. Every group, host, member edge and child edge
    of the inventory it starts from is still there afterwards, every name
    that had a variable still has it (possibly with a new value), and the
    reconciliation mark is left alone. *)
Theorem build_only_adds hp hgp gp inventory all_hosts inv :
  meta_hostvars inventory = Ok all_hosts →
  ∃ g, build_graph hp hgp gp inventory inv = Ok g
       ∧ groups inv ⊆ groups g ∧ hosts inv ⊆ hosts g
       ∧ members inv ⊆ members g ∧ child_groups inv ⊆ child_groups g
       ∧ dom (variables inv) ⊆ dom (variables g)
       ∧ reconciled g = reconciled inv.
Proof.
  intros Hmeta. eexists. split; [by apply build_graph_Ok|].
  split; [|split; [|split; [|split; [|split]]]].
  - intros x ?. apply assemble_groups. by left.
  - intros x ?. apply assemble_hosts. by left.
  - intros x ?. apply assemble_members. by left.
  - intros x ?. apply assemble_child_groups. by left.
  - intros [e k] [v Hv]%elem_of_dom. apply elem_of_dom.
    rewrite assemble_variables, Hv. simpl.
    destruct (group_var _ _ _ _); [done|].
    by destruct (host_var _ _ _ _).
  - apply assemble_reconciled.
Qed.

(** X17. Filters only remove. Whatever the three filters are, the groups,
    hosts, member edges and child edges of the built graph are among those
    the same document gives with no filter at all. *)
Theorem filters_only_remove hp hgp gp inventory all_hosts inv :
  meta_hostvars inventory = Ok all_hosts →
  ∃ g g0,
    build_graph hp hgp gp inventory inv = Ok g
    ∧ build_graph None None None inventory inv = Ok g0
    ∧ groups g ⊆ groups g0 ∧ hosts g ⊆ hosts g0
    ∧ members g ⊆ members g0 ∧ child_groups g ⊆ child_groups g0.
Proof.
  intros Hmeta. do 2 eexists.
  split; [by apply build_graph_Ok|]. split; [by apply build_graph_Ok|].
  pose proof (allowed_hosts_subseteq hp hgp gp inventory inv) as Hh.
  pose proof (allowed_groups_subseteq hp hgp gp inventory inv) as Hg.
  split; [|split; [|split]].
  - intros x. rewrite !assemble_groups. intros [?|?]; [by left|].
    right. by apply Hg.
  - intros x. rewrite !assemble_hosts. simpl.
    intros [?|[[??]|(n & c & ? & (? & ? & ?) & ? & ?)]]; [by left| |].
    + right. left. split; [by apply Hh|done].
    + right. right. exists n, c. unfold links. repeat split; auto.
  - intros x. rewrite !assemble_members. simpl.
    intros [?|(c & ? & (? & ? & ?) & ? & ?)]; [by left|].
    right. exists c. unfold links. repeat split; auto.
  - intros x. rewrite !assemble_child_groups. simpl.
    intros [?|(c & ? & (? & ? & ?) & ? & ?)]; [by left|].
    right. exists c. unfold links. repeat split; auto.
Qed.

(** X18. With no filter set, every top-level key except [_meta] becomes a
    group, and a host is present exactly when some key other than [_meta]
    lists it and either [_meta.hostvars] knows it or that key is not the
    root group: a host listed under [all] alone needs a [hostvars] entry, a
    host of any other group does not. *)
Theorem no_filter_everything_listed inventory all_hosts inv :
  meta_hostvars inventory = Ok all_hosts →
  ∃ g, build_graph None None None inventory inv = Ok g
       ∧ (∀ n, n ∈ groups g
               ↔ n ∈ groups inv ∨ (is_Some (inventory !! n) ∧ n ≠ "_meta"))
       ∧ (∀ h, h ∈ hosts g
               ↔ h ∈ hosts inv
                 ∨ ∃ n c, inventory !! n = Some c ∧ n ≠ "_meta"
                          ∧ h ∈ get_hosts c
                          ∧ (is_Some (all_hosts !! h) ∨ n ≠ "all")).
Proof.
  intros Hmeta. eexists. split; [by apply build_graph_Ok|]. split.
  - intros n. rewrite assemble_groups, allowed_groups_rule.
    pose proof (group_rule_None n). tauto.
  - intros h. rewrite assemble_hosts. simpl. split.
    + intros [?|[[Ha ?]|(n & c & Hc & Hl & Hh & _)]]; [by left| |].
      * apply allowed_hosts_rule in Ha as [_ (n & c & ? & ? & _ & _ & ?)].
        right. exists n, c. auto.
      * destruct Hl as (Hn & ? & ?). right. exists n, c. auto.
    + intros [?|(n & c & Hc & Hm & Hh & Hor)]; [by left|].
      assert (h ∈ allowed_hosts (discover None None None inventory inv)) as Ha.
      { apply allowed_hosts_rule. split; [by left|]. exists n, c.
        repeat split; try done; by left. }
      destruct Hor as [?|Hroot].
      * right. left. done.
      * right. right. exists n, c. repeat split; try done.
        apply allowed_groups_rule. repeat split; eauto. by left.
Qed.

(** X19. The child edges the build adds are exactly those from a non-root
    group that passes the group rule to a child, named in its [children]
    list, that is itself a top-level key of the document, not [_meta], and
    passes the group rule. A child that the document does not define, or that
    the groups filter rejects, is dropped without an error. *)
Theorem child_edges_exact hp hgp gp inventory all_hosts inv :
  meta_hostvars inventory = Ok all_hosts →
  ∃ g, build_graph hp hgp gp inventory inv = Ok g
       ∧ ∀ p c, (p, c) ∈ child_groups g
                ↔ (p, c) ∈ child_groups inv
                  ∨ ∃ content, inventory !! p = Some content
                               ∧ p ≠ "_meta" ∧ p ≠ "all" ∧ group_rule gp p
                               ∧ c ∈ get_children content
                               ∧ is_Some (inventory !! c)
                               ∧ c ≠ "_meta" ∧ group_rule gp c.
Proof.
  intros Hmeta. eexists. split; [by apply build_graph_Ok|].
  intros p c. rewrite assemble_child_groups. simpl. split.
  - intros [?|(content & Hp & Hl & Hc & Ha)]; [by left|]. right.
    apply links_rule in Hl as (? & ? & ?); [|eauto].
    apply allowed_groups_rule in Ha as (? & ? & ?). by exists content.
  - intros [?|(content & Hp & ? & ? & ? & Hc & ? & ? & ?)]; [by left|].
    right. exists content. rewrite links_rule by eauto.
    rewrite allowed_groups_rule. done.
Qed.

(** X20. The member edges the build adds are exactly those from a non-root
    group that passes the group rule to a host of its [hosts] list that is
    allowed. The group itself need not pass the hostgroups rule: a host let
    in through one group is attached to every admitted group that lists
    it. *)
Theorem member_edges_exact hp hgp gp inventory all_hosts inv :
  meta_hostvars inventory = Ok all_hosts →
  ∃ g, build_graph hp hgp gp inventory inv = Ok g
       ∧ ∀ n h, (n, h) ∈ members g
                ↔ (n, h) ∈ members inv
                  ∨ ∃ content, inventory !! n = Some content
                               ∧ n ≠ "_meta" ∧ n ≠ "all" ∧ group_rule gp n
                               ∧ h ∈ get_hosts content
                               ∧ host_rule hp h
                               ∧ listed_in_scanned_group hgp gp inventory h.
Proof.
  intros Hmeta. eexists. split; [by apply build_graph_Ok|].
  intros n h. rewrite assemble_members. simpl. split.
  - intros [?|(content & Hp & Hl & Hc & Ha)]; [by left|]. right.
    apply links_rule in Hl as (? & ? & ?); [|eauto].
    apply allowed_hosts_rule in Ha as [??]. by exists content.
  - intros [?|(content & Hp & ? & ? & ? & Hc & ? & ?)]; [by left|].
    right. exists content. rewrite links_rule by eauto.
    rewrite allowed_hosts_rule. done.
Qed.

(** X21. The hostgroups filter cannot bring back what the groups filter
    took away: a host whose every listing group is rejected by the groups
    filter is not allowed, whatever the hostgroups filter matches, and the
    build does not create it. *)
Theorem hostgroups_filter_cannot_readmit
    hp hgp gp inventory all_hosts inv h :
  meta_hostvars inventory = Ok all_hosts →
  (∀ n c, inventory !! n = Some c → h ∈ get_hosts c →
          n = "_meta" ∨ ¬ group_rule gp n) →
  (h ∉ allowed_hosts (discover hp hgp gp inventory inv))
  ∧ ∃ g, build_graph hp hgp gp inventory inv = Ok g
         ∧ (h ∈ hosts g → h ∈ hosts inv)
         ∧ ∀ n, (n, h) ∈ members g → (n, h) ∈ members inv.
Proof.
  intros Hmeta Hrej.
  assert (h ∉ allowed_hosts (discover hp hgp gp inventory inv)) as Ha.
  { rewrite allowed_hosts_rule. intros [_ (n & c & Hc & ? & ? & _ & Hh)].
    destruct (Hrej n c Hc Hh); done. }
  split; [done|]. eexists. split; [by apply build_graph_Ok|]. split.
  - rewrite assemble_hosts. simpl.
    intros [?|[[??]|(n & c & _ & _ & _ & ?)]]; done.
  - intros n. rewrite assemble_members. simpl.
    intros [?|(c & _ & _ & _ & ?)]; done.
Qed.

End Built.

(** ** Further theorems at concrete inputs *)

Example verify_file_accepts_example :
  (verify_file (λ _, false) {| no_config_file_supplied := false |}
     "@controllerx_inventory").2 = true
  ∧ (verify_file (λ _, true) {| no_config_file_supplied := false |}
       "/etc/ansible/prod.controllerx.yml").2 = true
  ∧ (verify_file (λ _, true) {| no_config_file_supplied := false |}
       "/etc/ansible/controllerx.yml.bak").2 = false.
Proof. repeat split; reflexivity. Qed.

Lemma env_path_is_remembered_witness :
  existsb (ends_with "@controllerx_inventory")
    ["a/controllerx.yml"; "@controllerx_inventory"; "b/controllerx.yaml"]
  = true
  ∧ ∀ isfile path,
      reads_config_file
        (verify_files (λ _, true)
           ["a/controllerx.yml"; "@controllerx_inventory";
            "b/controllerx.yaml"]
           {| no_config_file_supplied := false |})
        isfile path = false.
Proof.
  split; [reflexivity|].
  apply (env_path_is_remembered (λ _, true)
           ["a/controllerx.yml"; "@controllerx_inventory";
            "b/controllerx.yaml"]
           {| no_config_file_supplied := false |}).
  reflexivity.
Defined.

Lemma replace_removes_needle_witness :
  (" "%char ∉ chars "%20")
  ∧ (" "%char ∉ chars (replace " " "%20" "prod inv east"))
  ∧ (replace " " "%20" "prod inv east" = "prod inv east"
     ↔ " "%char ∉ chars "prod inv east").
Proof.
  assert (" "%char ∉ chars "%20") as H.
  { simpl. rewrite !not_elem_of_cons. repeat split; try discriminate.
    apply not_elem_of_nil. }
  split; [exact H|].
  apply (replace_removes_needle " " "%20" "prod inv east" H).
Defined.

Lemma controller_host_has_scheme_witness :
  has_scheme (opt_host example_options) = false
  ∧ controller_host_of example_options = "https://ctl.example.org".
Proof.
  split; [reflexivity|].
  destruct (controller_host_has_scheme example_options) as (_ & _ & H & _).
  exact (H eq_refl).
Defined.

Lemma split_doc_hostvars : meta_hostvars split_doc = Ok scenario_hostvars.
Proof. vm_compute. reflexivity. Qed.

Lemma successful_run_requests_witness :
  ∃ g name j id,
    parse example_options example_controller empty_inventory []
    = ([name_request example_options name; script_request example_options id;
        config_request example_options], Ok g)
    ∧ inventory_name_option (opt_inventory_name example_options) = Ok name
    ∧ inventories_endpoint example_controller
        (request_handler_of example_options)
        (name_request example_options name) = Body j
    ∧ first_result_id j = Ok id.
Proof.
  destruct (parse example_options example_controller empty_inventory [])
    as [log [g|e]] eqn:Hrun; [|vm_compute in Hrun; discriminate].
  destruct (successful_run_requests (RT:=literal_runtime) example_options
              example_controller empty_inventory log g Hrun)
    as (name & j & id & Hn & Hj & Hid & ->).
  exists g, name, j, id. auto.
Defined.

Lemma inventory_name_error_iff_witness :
  inventory_name_option (opt_inventory_name bad_name_options)
  = Raise AnsibleOptionsError
  ∧ parse bad_name_options example_controller empty_inventory []
    = ([], Raise AnsibleOptionsError).
Proof.
  split; [reflexivity|].
  destruct (inventory_name_error_iff (RT:=literal_runtime) bad_name_options
              example_controller empty_inventory) as (_ & H & _).
  apply (H AnsibleOptionsError). reflexivity.
Defined.



Lemma host_vars_copied_witness :
  ∃ g, build_graph (Some "h1") None None scenario_doc empty_inventory = Ok g
       ∧ "h1" ∈ hosts g
       ∧ variables g !! ("h1", "ip") = Some (JStr "10.0.0.1").
Proof.
  destruct (host_vars_copied (RT:=literal_runtime) (Some "h1") None None
              scenario_doc scenario_hostvars empty_inventory "h1"
              (list_to_map [("ip", JStr "10.0.0.1")]) "ip" (JStr "10.0.0.1"))
    as (g & Hg & Hh & Hv & _).
  - exact scenario_doc_hostvars.
  - right. exists "h1". split; reflexivity.
  - exists "g1", (group_entry ["h1"] [] [("env", JStr "prod")]).
    split; [vm_compute; reflexivity|]. split; [discriminate|].
    split; [by left|]. split; [by left|].
    apply list_elem_of_singleton. reflexivity.
  - vm_compute. reflexivity.
  - vm_compute. reflexivity.
  - exists g. split; [exact Hg|]. split; [exact Hh|]. apply Hv.
    intros c Hc. exfalso. vm_compute in Hc. discriminate.
Defined.

Lemma root_group_gets_no_edges_witness :
  ∃ g, build_graph None None None family_doc empty_inventory = Ok g
       ∧ ∀ n x, n = "all" ∨ n = "_meta" →
                ((n, x) ∈ members g → (n, x) ∈ members empty_inventory)
                ∧ ((n, x) ∈ child_groups g
                   → (n, x) ∈ child_groups empty_inventory).
Proof.
  apply (root_group_gets_no_edges (RT:=literal_runtime) None None None
           family_doc scenario_hostvars empty_inventory).
  exact family_doc_hostvars.
Defined.

Lemma groups_ignore_host_filters_witness :
  ∃ g1 g2,
    build_graph None None (Some "g1") family_doc empty_inventory = Ok g1
    ∧ build_graph (Some "zzz") (Some "all") (Some "g1") family_doc
        empty_inventory = Ok g2
    ∧ groups g1 = groups g2 ∧ child_groups g1 = child_groups g2.
Proof.
  apply (groups_ignore_host_filters (RT:=literal_runtime) None None
           (Some "zzz") (Some "all") (Some "g1") family_doc scenario_hostvars
           empty_inventory).
  exact family_doc_hostvars.
Defined.

Lemma build_only_adds_witness :
  ∃ g, build_graph None None (Some "g1") family_doc
         (add_host "old" (Some "legacy") (add_group "legacy" empty_inventory))
       = Ok g
       ∧ "legacy" ∈ groups g ∧ "old" ∈ hosts g
       ∧ ("legacy", "old") ∈ members g.
Proof.
  destruct (build_only_adds (RT:=literal_runtime) None None (Some "g1")
              family_doc scenario_hostvars
              (add_host "old" (Some "legacy")
                 (add_group "legacy" empty_inventory)) family_doc_hostvars)
    as (g & Hg & Hgr & Hh & Hm & _).
  exists g. split; [exact Hg|]. split; [|split].
  - apply Hgr. vm_compute. reflexivity.
  - apply Hh. vm_compute. reflexivity.
  - apply Hm. vm_compute. reflexivity.
Defined.

Lemma filters_only_remove_witness :
  ∃ g g0,
    build_graph (Some "h1") (Some "g1") (Some "g1") family_doc empty_inventory
    = Ok g
    ∧ build_graph None None None family_doc empty_inventory = Ok g0
    ∧ groups g ⊆ groups g0 ∧ hosts g ⊆ hosts g0
    ∧ members g ⊆ members g0 ∧ child_groups g ⊆ child_groups g0.
Proof.
  apply (filters_only_remove (RT:=literal_runtime) (Some "h1") (Some "g1")
           (Some "g1") family_doc scenario_hostvars empty_inventory).
  exact family_doc_hostvars.
Defined.

Lemma no_filter_everything_listed_witness :
  ∃ g, build_graph None None None orphan_doc empty_inventory = Ok g
       ∧ (∀ n, n ∈ groups g
               ↔ n ∈ groups empty_inventory
                 ∨ (is_Some (orphan_doc !! n) ∧ n ≠ "_meta"))
       ∧ (∀ h, h ∈ hosts g
               ↔ h ∈ hosts empty_inventory
                 ∨ ∃ n c, orphan_doc !! n = Some c ∧ n ≠ "_meta"
                          ∧ h ∈ get_hosts c
                          ∧ (is_Some ((∅ : gmap string (gmap string json))
                                        !! h)
                             ∨ n ≠ "all")).
Proof.
  apply (no_filter_everything_listed (RT:=literal_runtime) orphan_doc ∅
           empty_inventory).
  exact orphan_doc_hostvars.
Defined.

Lemma child_edges_exact_witness :
  ∃ g, build_graph None None (Some "g1") family_doc empty_inventory = Ok g
       ∧ ("g1", "g1a") ∈ child_groups g ∧ ("g1", "x2") ∉ child_groups g.
Proof.
  destruct (child_edges_exact (RT:=literal_runtime) None None (Some "g1")
              family_doc scenario_hostvars empty_inventory
              family_doc_hostvars) as (g & Hg & Hc).
  exists g. split; [exact Hg|]. split.
  - apply Hc. right.
    exists (group_entry ["h1"] ["g1a"; "x2"] [("env", JStr "prod")]).
    split; [vm_compute; reflexivity|]. split; [discriminate|].
    split; [discriminate|].
    split; [right; left; exists "g1"; split; reflexivity|].
    split; [left|].
    split; [eexists; vm_compute; reflexivity|]. split; [discriminate|].
    right. left. exists "g1". split; reflexivity.
  - intros [Hin|(_ & _ & _ & _ & _ & _ & _ & _ & Hr)]%Hc.
    + by apply not_elem_of_empty in Hin.
    + destruct Hr as [?|[(p & [= <-] & Hp)|?]]; discriminate.
Defined.

Lemma member_edges_exact_witness :
  ∃ g, build_graph None (Some "g1a") None family_doc empty_inventory = Ok g
       ∧ ("g1", "h1") ∈ members g.
Proof.
  destruct (member_edges_exact (RT:=literal_runtime) None (Some "g1a") None
              family_doc scenario_hostvars empty_inventory
              family_doc_hostvars) as (g & Hg & Hm).
  exists g. split; [exact Hg|]. apply Hm. right.
  exists (group_entry ["h1"] ["g1a"; "x2"] [("env", JStr "prod")]).
  split; [vm_compute; reflexivity|]. split; [discriminate|].
  split; [discriminate|]. split; [by left|].
  split; [apply list_elem_of_singleton; reflexivity|]. split; [by left|].
  exists "g1a", (group_entry ["h1"] [] []).
  split; [vm_compute; reflexivity|]. split; [discriminate|].
  split; [by left|].
  split; [right; exists "g1a"; split; reflexivity|].
  apply list_elem_of_singleton. reflexivity.
Defined.

Lemma hostgroups_filter_cannot_readmit_witness :
  ("h2" ∉ allowed_hosts
            (discover None (Some "x2") (Some "g1") split_doc empty_inventory))
  ∧ ∃ g, build_graph None (Some "x2") (Some "g1") split_doc empty_inventory
         = Ok g
         ∧ ("h2" ∈ hosts g → "h2" ∈ hosts empty_inventory)
         ∧ ∀ n, (n, "h2") ∈ members g → (n, "h2") ∈ members empty_inventory.
Proof.
  apply (hostgroups_filter_cannot_readmit (RT:=literal_runtime) None
           (Some "x2") (Some "g1") split_doc scenario_hostvars
           empty_inventory "h2").
  - exact split_doc_hostvars.
  - intros n c Hc Hh.
    assert (n ∈ dom split_doc) as Hn by (by apply elem_of_dom_2 in Hc).
    replace (dom split_doc) with ({["g1"; "x2"; "_meta"]} : gset string)
      in Hn by (vm_compute; reflexivity).
    rewrite !elem_of_union, !elem_of_singleton in Hn.
    destruct Hn as [[-> | ->] | ->].
    + exfalso. vm_compute in Hc. injection Hc as <-.
      apply list_elem_of_singleton in Hh. discriminate.
    + right. intros [?|[(p & Hp & Hs)|?]]; [discriminate| |discriminate].
      injection Hp as <-. discriminate.
    + by left.
Defined.
